(** * CyberArk API command harness

    A shallow embedding of [main.go] (configuration loader, workflow
    registry, dispatcher) and of the HTTP client wrapper (API client
    file), together with the properties of the specification that are
    stated about them.

    Conventions.
    - Go strings and byte slices are byte sequences: [string].
    - A Go [error] is identified with the text of its [Error()] method.
    - A Go function returning [(T, error)] returns [result T].
    - The process (standard output, error stream, operating-system calls,
      [os.Exit]) is a state monad [Proc] over a [World] that records the
      two streams and the trace of external calls.
    - What the Go runtime, the operating system and the standard library
      decide is read from two records: [Runtime] (home directory, file
      system, JSON decoder, map iteration order) and [Transport] (JSON
      encoder, request validation, HTTP exchange).  The theorems hold for
      every such record. *)

From Stdlib Require Import ZArith NArith String Ascii List OctalString Lia.
From stdpp Require Import base gmap strings pretty.



(** ** Go values *)

Definition error := string.

Inductive result (A : Type) : Type :=
| Ok (a : A)
| Err (e : error).
Arguments Ok {A} a.
Arguments Err {A} e.

(** [type Config struct] of main.go. [Timeout] is a Go [int]. *)
Record Config := {
  APISecret : string;
  BaseURL : string;
  Username : string;
  Timeout : Z
}.

(** ** Package fmt: the verbs the program uses *)
Module fmt.

(** The line feed that [Println] appends and that ["\n"] denotes. *)
Definition nl : string := String "010" "".

(** [%d] of an [int]. *)
Definition verb_d (n : Z) : string := pretty n.

(** [%o] of an unsigned integer: octal digits, no prefix, no padding. *)
Definition verb_o (n : N) : string :=
  match n with
  | N0 => "0"
  | Npos p => OctalString.Raw.of_pos p ""
  end.

(** Reading back an octal numeral (used to state that a message names a
    number). *)
Definition read_o (s : string) : N := OctalString.Raw.to_N s 0%N.

End fmt.

(** ** Package path/filepath (Unix)

    [filepath.Join] and [filepath.Clean] belong to the Go standard library.
    [Clean] is purely lexical: it drops empty and ["."] elements, lets
    [".."] cancel the element before it (or stay at the front of a path
    that is not rooted, or vanish right after the root), and turns the empty
    result into ["."].  [out] is the stack of the elements kept so far, the
    most recent one first. *)
Module filepath.

(** [strings.Split(s, "/")] *)
Fixpoint split (s : string) : list string :=
  match s with
  | "" => [""]
  | String c s' =>
      if decide (c = "/"%char) then "" :: split s'
      else match split s' with
           | x :: xs => String c x :: xs
           | [] => [String c ""]
           end
  end.

(** [strings.Join(elems, "/")] *)
Fixpoint join (elems : list string) : string :=
  match elems with
  | [] => ""
  | e :: rest =>
      match rest with
      | [] => e
      | _ :: _ => e +:+ "/" +:+ join rest
      end
  end.

Definition isRooted (path : string) : bool :=
  match path with
  | String c _ => bool_decide (c = "/"%char)
  | "" => false
  end.

Definition visit (rooted : bool) (out : list string) (elem : string)
  : list string :=
  if decide (elem = "") then out
  else if decide (elem = ".") then out
  else if decide (elem = "..") then
    match out with
    | top :: out' =>
        if decide (top = "..") then (if rooted then out else ".." :: out)
        else out'
    | [] => if rooted then out else ".." :: out
    end
  else elem :: out.

Definition Clean (path : string) : string :=
  if decide (path = "") then "."
  else
    let rooted := isRooted path in
    let out := fold_left (visit rooted) (split path) [] in
    if rooted then "/" +:+ join (rev out)
    else match out with
         | [] => "."
         | _ :: _ => join (rev out)
         end.

(** [Join] ignores leading empty elements and cleans the rest joined by
    slashes; with no non-empty element the result is empty. *)
Fixpoint Join (elem : list string) : string :=
  match elem with
  | [] => ""
  | e :: rest => if decide (e = "") then Join rest else Clean (join elem)
  end.

End filepath.

(** ** Package net/http: requests and responses *)

Record Request := {
  Method : string;
  URL : string;
  ReqBody : option string;
  Header : gmap string (list string)
}.

(** [req.Header.Set(key, value)]: the entry of [key] becomes the single
    value.  Both keys the client sets are already in canonical form. *)
Definition Header_Set (key value : string) (req : Request) : Request :=
  {| Method := Method req; URL := URL req; ReqBody := ReqBody req;
     Header := <[key := [value]]> (Header req) |}.

(** A response body is a stream: [ioutil.ReadAll] returns the bytes read
    and, possibly, the error that stopped the reading. *)
Record ReadCloser := {
  contents : string;
  readError : option error
}.

Record Response := {
  StatusCode : Z;
  Body : ReadCloser
}.

(** ** The process *)

(** [os.FileInfo], reduced to its [Mode()], an [os.FileMode] (32 bits,
    unsigned). *)
Record FileInfo := { Mode : N }.

(** The external calls a run makes, in order.  [EvExecute] is recorded by
    [main] at the call of a registered workflow's [Execute]. *)
Inductive Event :=
| EvUserHomeDir
| EvStat (name : string)
| EvReadFile (filename : string)
| EvDo (req : Request)
| EvExecute (name : string) (config : Config) (args : list string).

Record World := {
  stdout : string;
  stderr : string;
  trace : list Event
}.

Inductive Outcome (A : Type) : Type :=
| Ret (a : A)
| Exit (code : Z).
Arguments Ret {A} a.
Arguments Exit {A} code.

Definition Proc (A : Type) : Type := World -> World * Outcome A.

Definition ret {A} (a : A) : Proc A := fun w => (w, Ret a).

Definition bind {A B} (m : Proc A) (k : A -> Proc B) : Proc B :=
  fun w =>
    match m w with
    | (w', Ret a) => k a w'
    | (w', Exit code) => (w', Exit code)
    end.

Notation "x <- m ;; k" := (bind m (fun x => k))
  (at level 100, m at next level, right associativity).
Notation "m ;; k" := (bind m (fun _ => k))
  (at level 100, right associativity).

(** Go's [v, err := call; if err != nil { return nil, wrapped }]. *)
Notation "'try' x <- m 'else' e => h ;; k" :=
  (bind m (fun r => match r with
                    | Ok x => k
                    | Err e => ret (Err h)
                    end))
  (at level 100, x name, e name, m at next level, h at next level,
   right associativity).

Definition emit (ev : Event) : Proc unit :=
  fun w => ({| stdout := stdout w; stderr := stderr w;
               trace := trace w ++ [ev] |}, Ret tt).

(** [fmt.Print] to standard output and [fmt.Fprint(os.Stderr, ...)]. *)
Definition Print (s : string) : Proc unit :=
  fun w => ({| stdout := stdout w +:+ s; stderr := stderr w;
               trace := trace w |}, Ret tt).

Definition Println (s : string) : Proc unit := Print (s +:+ fmt.nl).

Definition Fprint_Stderr (s : string) : Proc unit :=
  fun w => ({| stdout := stdout w; stderr := stderr w +:+ s;
               trace := trace w |}, Ret tt).

Definition os_Exit {A} (code : Z) : Proc A := fun w => (w, Exit code).

(** [type Workflow interface] of main.go. *)
Record Workflow := {
  Execute : Config -> list string -> Proc (option error);
  Help : Proc string
}.

(** What the environment decides. *)
Record Runtime := {
  os_UserHomeDir : result string;
  os_Stat : string -> result FileInfo;
  ioutil_ReadFile : string -> result string;
  (** [json.Unmarshal(data, &config)] on a zero [Config] *)
  json_Unmarshal : string -> result Config;
  (** [%q] of a string *)
  strconv_Quote : string -> string;
  (** the order in which [range] visits the keys of the registry *)
  range_keys : gmap string Workflow -> list string
}.

(** [info.Mode().Perm()]: the permission bits, [mode & 0777]. *)
Definition Perm (mode : N) : N := N.land mode 511.

(** ** Package flag

    The part of the Go standard library's flag parser that the program
    exercises: boolean and string flags bound to variables, a usage
    function, and the [ExitOnError] policy (both flag sets of the program
    use it).  [V] is the tuple of the variables the flags are bound to. *)
Module flag.

Inductive Flag (V : Type) : Type :=
| BoolVar (set : bool -> V -> V)
| StringVar (set : string -> V -> V).
Arguments BoolVar {V} set.
Arguments StringVar {V} set.

Record FlagSet (V : Type) : Type := {
  formal : gmap string (Flag V);
  Usage : Proc unit
}.
Arguments formal {V} f.
Arguments Usage {V} f.

(** [strconv.ParseBool] *)
Definition ParseBool (str : string) : option bool :=
  if bool_decide (str ∈ ["1"; "t"; "T"; "TRUE"; "true"; "True"])
  then Some true
  else if bool_decide (str ∈ ["0"; "f"; "F"; "FALSE"; "false"; "False"])
  then Some false
  else None.

(** Splits [name=value] at the first ['='] of [s]. *)
Fixpoint cut (s : string) : string * option string :=
  match s with
  | "" => ("", None)
  | String c s' =>
      if decide (c = "="%char) then ("", Some s')
      else let (name, value) := cut s' in (String c name, value)
  end.

Section Parse.
Context (rt : Runtime) {V : Type} (f : FlagSet V).

(** [failf] followed by the [ExitOnError] branch of [Parse]: the message
    goes to the error stream, the usage function runs, the process exits
    with status 2. *)
Definition failf {A} (msg : string) : Proc A :=
  Fprint_Stderr (msg +:+ fmt.nl) ;; Usage f ;; os_Exit 2.

(** [Parse]: the loop over [parseOne].  Returns the variables and the
    remaining (positional) arguments. *)
Fixpoint Parse (v : V) (args : list string) : Proc (V * list string) :=
  match args with
  | [] => ret (v, [])
  | s :: rest =>
      match s with
      | String c (String c1 s2 as s1) =>
          if decide (c <> "-"%char) then ret (v, args)
          else if decide (s = "--") then ret (v, rest)
          else
            let name := if decide (c1 = "-"%char) then s2 else s1 in
            match name with
            | "" => failf ("bad flag syntax: " +:+ s)
            | String c0 name' =>
                if decide (c0 = "-"%char \/ c0 = "="%char)
                then failf ("bad flag syntax: " +:+ s)
                else
                  let (name', value) := cut name' in
                  let name := String c0 name' in
                  match formal f !! name with
                  | None =>
                      if decide (name = "help" \/ name = "h")
                      then Usage f ;; os_Exit 0
                      else failf ("flag provided but not defined: -"
                                  +:+ name)
                  | Some (BoolVar set) =>
                      match value with
                      | Some value =>
                          match ParseBool value with
                          | Some b => Parse (set b v) rest
                          | None =>
                              failf ("invalid boolean value "
                                     +:+ strconv_Quote rt value
                                     +:+ " for -" +:+ name
                                     +:+ ": parse error")
                          end
                      | None => Parse (set true v) rest
                      end
                  | Some (StringVar set) =>
                      match value with
                      | Some value => Parse (set value v) rest
                      | None =>
                          match rest with
                          | value :: rest' => Parse (set value v) rest'
                          | [] => failf ("flag needs an argument: -"
                                         +:+ name)
                          end
                      end
                  end
            end
      | _ => ret (v, args)
      end
  end.

End Parse.

End flag.

(** ** main.go *)

(** [var WorkflowRegistry = make(map[string]Workflow)] is a
    [gmap string Workflow]; the registry is filled by the [init] functions
    before [main] runs and [main] only reads it, so it is passed along. *)

(** [func RegisterWorkflow(name string, workflow Workflow)] *)
Definition RegisterWorkflow (name : string) (workflow : Workflow)
    (WorkflowRegistry : gmap string Workflow) : gmap string Workflow :=
  <[name := workflow]> WorkflowRegistry.

(** The variables the global flags are bound to. *)
Record GlobalFlags := {
  configPath : string;
  showHelp : bool
}.

(** A [for ... range] loop over the names in the order given. *)
Fixpoint for_range (names : list string) (body : string -> Proc unit)
    : Proc unit :=
  match names with
  | [] => ret tt
  | name :: names' => body name ;; for_range names' body
  end.

(** The process exit status: [main] returning is status 0. *)
Definition exitStatus {A} (o : Outcome A) : Z :=
  match o with
  | Ret _ => 0
  | Exit code => code
  end.

Section Main.
Context (rt : Runtime).

Definition UserHomeDir : Proc (result string) :=
  emit EvUserHomeDir ;; ret (os_UserHomeDir rt).

Definition Stat (name : string) : Proc (result FileInfo) :=
  emit (EvStat name) ;; ret (os_Stat rt name).

Definition ReadFile (filename : string) : Proc (result string) :=
  emit (EvReadFile filename) ;; ret (ioutil_ReadFile rt filename).

(** [func loadConfig(path string)], returning a [Config] pointer and an
    [error]. *)
Definition loadConfig (path : string) : Proc (result Config) :=
  try path <- match path with
              | String c rest =>
                  if decide (c = "~"%char) then
                    try home <- UserHomeDir
                    else err => "failed to get home directory: " +:+ err ;;
                    ret (Ok (filepath.Join [home; rest]))
                  else ret (Ok path)
              | "" => ret (Ok path)
              end
  else err => err ;;
  try info <- Stat path
  else err => "failed to stat config file: " +:+ err ;;
  let mode := Perm (Mode info) in
  if decide (mode <> 384%N) then
    ret (Err ("config file must have 0600 permissions, has "
              +:+ fmt.verb_o mode))
  else
    try data <- ReadFile path
    else err => "failed to read config file: " +:+ err ;;
    try config <- ret (json_Unmarshal rt data)
    else err => "failed to parse config JSON: " +:+ err ;;
    if decide (APISecret config = "") then
      ret (Err "api_secret is required in config file")
    else if decide (BaseURL config = "") then
      ret (Err "base_url is required in config file")
    else ret (Ok config).

(** [func printUsage()] *)
Definition printUsage (WorkflowRegistry : gmap string Workflow)
    : Proc unit :=
  Println "CyberArk API Command Harness" ;;
  Println (fmt.nl +:+ "Usage:") ;;
  Println "  cyberark [--global-options] workflow_name [--workflow-options]" ;;
  Println (fmt.nl +:+ "Global Options:") ;;
  Println "  -c, --config PATH    Path to configuration file (default: ~/.cyberark_api)" ;;
  Println "  -h, --help           Show this help message" ;;
  Println (fmt.nl +:+ "Built-in Workflows:") ;;
  Println "  verify               Verify API connectivity" ;;
  Println (fmt.nl +:+ "Registered Workflows:") ;;
  for_range (range_keys rt WorkflowRegistry)
    (fun name => Print ("  " +:+ name +:+ fmt.nl)) ;;
  Println (fmt.nl +:+ "For workflow-specific help:") ;;
  Println "  cyberark workflow_name --help".

(** What the flag package prints as usage of the flag set [verify], which
    has no usage function of its own. *)
Definition verifyDefaultUsage : Proc unit :=
  Fprint_Stderr ("Usage of verify:" +:+ fmt.nl) ;;
  Fprint_Stderr ("  -h" +:+ String "009" "Show help (shorthand)" +:+ fmt.nl) ;;
  Fprint_Stderr ("  -help" +:+ fmt.nl +:+ "    "
                 +:+ String "009" "Show help for verify workflow"
                 +:+ fmt.nl).

(** [func verifyConnectivity(config, args) error] *)
Definition verifyConnectivity (config : Config) (args : list string)
    : Proc (option error) :=
  let fs := {| flag.formal :=
                 <["h" := flag.BoolVar (fun b (_ : bool) => b)]>
                   (<["help" := flag.BoolVar (fun b (_ : bool) => b)]> ∅);
               flag.Usage := verifyDefaultUsage |} in
  parsed <- flag.Parse rt fs false args ;;
  let help := fst parsed in
  if help then
    Println "Verify Workflow - Test CyberArk API connectivity" ;;
    Println (fmt.nl +:+ "Usage:") ;;
    Println "  cyberark verify [options]" ;;
    Println (fmt.nl +:+ "Options:") ;;
    Println "  -h, --help    Show this help message" ;;
    ret None
  else
    Println "Verifying CyberArk API connectivity..." ;;
    Print ("Base URL: " +:+ BaseURL config +:+ fmt.nl) ;;
    Println "API Secret: [REDACTED]" ;;
    Println (fmt.nl +:+ "✓ Configuration loaded successfully") ;;
    Println "✓ API credentials present" ;;
    Println (fmt.nl +:+ "Note: Actual API connectivity test not yet implemented") ;;
    ret None.

(** [flag.CommandLine] as [main] sets it up: the four global flags, two
    bound to [configPath] and two to [showHelp], and
    [flag.Usage = printUsage]. *)
Definition CommandLine (WorkflowRegistry : gmap string Workflow)
    : flag.FlagSet GlobalFlags :=
  let setConfigPath (s : string) (g : GlobalFlags) :=
    {| configPath := s; showHelp := showHelp g |} in
  let setShowHelp (b : bool) (g : GlobalFlags) :=
    {| configPath := configPath g; showHelp := b |} in
  {| flag.formal :=
       <["h" := flag.BoolVar setShowHelp]>
         (<["help" := flag.BoolVar setShowHelp]>
            (<["c" := flag.StringVar setConfigPath]>
               (<["config" := flag.StringVar setConfigPath]> ∅)));
     flag.Usage := printUsage WorkflowRegistry |}.

(** The values of the global variables before [flag.Parse]. *)
Definition flagDefaults : GlobalFlags :=
  {| configPath := "~/.cyberark_api"; showHelp := false |}.

(** [func main()]; [osArgs] is [os.Args[1:]]. *)
Definition main (WorkflowRegistry : gmap string Workflow)
    (osArgs : list string) : Proc unit :=
  parsed <- flag.Parse rt (CommandLine WorkflowRegistry) flagDefaults
              osArgs ;;
  let (g, args) := (parsed : GlobalFlags * list string) in
  if showHelp g then
    printUsage WorkflowRegistry ;; os_Exit 0
  else
    match args with
    | [] =>
        Println "Error: workflow name required" ;;
        printUsage WorkflowRegistry ;;
        os_Exit 1
    | workflowName :: workflowArgs =>
        loaded <- loadConfig (configPath g) ;;
        match loaded with
        | Err err =>
            Fprint_Stderr ("Error loading config: " +:+ err +:+ fmt.nl) ;;
            os_Exit 1
        | Ok config =>
            if decide (workflowName = "verify") then
              err <- verifyConnectivity config workflowArgs ;;
              match err with
              | Some err =>
                  Fprint_Stderr ("Error: " +:+ err +:+ fmt.nl) ;;
                  os_Exit 1
              | None => ret tt
              end
            else
              match WorkflowRegistry !! workflowName with
              | None =>
                  Fprint_Stderr ("Error: unknown workflow '"
                                 +:+ workflowName +:+ "'" +:+ fmt.nl) ;;
                  printUsage WorkflowRegistry ;;
                  os_Exit 1
              | Some workflow =>
                  emit (EvExecute workflowName config workflowArgs) ;;
                  err <- Execute workflow config workflowArgs ;;
                  match err with
                  | Some err =>
                      Fprint_Stderr ("Error executing workflow: "
                                     +:+ err +:+ fmt.nl) ;;
                      os_Exit 1
                  | None => ret tt
                  end
              end
        end
    end.

End Main.

(** ** The API client

    The deferred [resp.Body.Close()] of the four operations releases the
    connection and has no part in what they return; it is left out. *)

(** [http.Client]; the time-out is a [time.Duration], signed 64-bit
    nanoseconds. *)
Record http_Client := { Client_Timeout : Z }.

(** [type APIClient struct] *)
Record APIClient := {
  config : Config;
  httpClient : http_Client
}.

(** Signed 64-bit wrap-around of [time.Duration] arithmetic. *)
Definition wrap64 (z : Z) : Z := ((z + 2 ^ 63) mod 2 ^ 64 - 2 ^ 63)%Z.

Definition time_Second : Z := 1000000000.

(** [func NewAPIClient], from a [Config] pointer to an [APIClient]. *)
Definition NewAPIClient (config : Config) : APIClient :=
  let timeout := 30%Z in
  let timeout := if (0 <? Timeout config)%Z then Timeout config else timeout in
  let httpClient := {| Client_Timeout := wrap64 (timeout * time_Second) |} in
  {| config := config; httpClient := httpClient |}.

(** What the JSON encoder and the HTTP library decide.  [Payload] stands
    for the values a caller may pass as [interface{}]. *)
Record Transport (Payload : Type) : Type := {
  json_Marshal : Payload -> result string;
  (** the error of [http.NewRequest] for a method and a URL, if any *)
  http_NewRequest_error : string -> string -> option error;
  (** the [Do] method of [http.Client] *)
  Client_Do : http_Client -> Request -> result Response
}.
Arguments json_Marshal {Payload} t.
Arguments http_NewRequest_error {Payload} t.
Arguments Client_Do {Payload} t.

(** [ioutil.ReadAll(resp.Body)] *)
Definition ioutil_ReadAll (body : ReadCloser) : string * option error :=
  (contents body, readError body).

Section Client.
Context {Payload : Type} (tr : Transport Payload).

(** [http.NewRequest(method, url, body)]: a request with no header yet. *)
Definition http_NewRequest (method url : string) (body : option string)
    : result Request :=
  match http_NewRequest_error tr method url with
  | Some err => Err err
  | None => Ok {| Method := method; URL := url; ReqBody := body;
                  Header := ∅ |}
  end.

Definition Do (c : http_Client) (req : Request) : Proc (result Response) :=
  emit (EvDo req) ;; ret (Client_Do tr c req).

(** The method [Get(endpoint string)], returning bytes and an [error]. *)
Definition Get (c : APIClient) (endpoint : string) : Proc (result string) :=
  let url := BaseURL (config c) +:+ "/" +:+ endpoint in
  try req <- ret (http_NewRequest "GET" url None)
  else err => "failed to create request: " +:+ err ;;
  let req := Header_Set "Authorization" (APISecret (config c)) req in
  let req := Header_Set "Content-Type" "application/json" req in
  try resp <- Do (httpClient c) req
  else err => "request failed: " +:+ err ;;
  let (body, err) := ioutil_ReadAll (Body resp) in
  match err with
  | Some err => ret (Err ("failed to read response: " +:+ err))
  | None =>
      if ((StatusCode resp <? 200) || (300 <=? StatusCode resp))%Z then
        ret (Err ("API error (status " +:+ fmt.verb_d (StatusCode resp)
                  +:+ "): " +:+ body))
      else ret (Ok body)
  end.

(** The method [Post(endpoint string, payload interface{})]. *)
Definition Post (c : APIClient) (endpoint : string) (payload : Payload)
    : Proc (result string) :=
  let url := BaseURL (config c) +:+ "/" +:+ endpoint in
  try jsonData <- ret (json_Marshal tr payload)
  else err => "failed to marshal payload: " +:+ err ;;
  try req <- ret (http_NewRequest "POST" url (Some jsonData))
  else err => "failed to create request: " +:+ err ;;
  let req := Header_Set "Authorization" (APISecret (config c)) req in
  let req := Header_Set "Content-Type" "application/json" req in
  try resp <- Do (httpClient c) req
  else err => "request failed: " +:+ err ;;
  let (body, err) := ioutil_ReadAll (Body resp) in
  match err with
  | Some err => ret (Err ("failed to read response: " +:+ err))
  | None =>
      if ((StatusCode resp <? 200) || (300 <=? StatusCode resp))%Z then
        ret (Err ("API error (status " +:+ fmt.verb_d (StatusCode resp)
                  +:+ "): " +:+ body))
      else ret (Ok body)
  end.

(** The method [Put(endpoint string, payload interface{})]. *)
Definition Put (c : APIClient) (endpoint : string) (payload : Payload)
    : Proc (result string) :=
  let url := BaseURL (config c) +:+ "/" +:+ endpoint in
  try jsonData <- ret (json_Marshal tr payload)
  else err => "failed to marshal payload: " +:+ err ;;
  try req <- ret (http_NewRequest "PUT" url (Some jsonData))
  else err => "failed to create request: " +:+ err ;;
  let req := Header_Set "Authorization" (APISecret (config c)) req in
  let req := Header_Set "Content-Type" "application/json" req in
  try resp <- Do (httpClient c) req
  else err => "request failed: " +:+ err ;;
  let (body, err) := ioutil_ReadAll (Body resp) in
  match err with
  | Some err => ret (Err ("failed to read response: " +:+ err))
  | None =>
      if ((StatusCode resp <? 200) || (300 <=? StatusCode resp))%Z then
        ret (Err ("API error (status " +:+ fmt.verb_d (StatusCode resp)
                  +:+ "): " +:+ body))
      else ret (Ok body)
  end.

(** The method [Delete(endpoint string) error]. *)
Definition Delete (c : APIClient) (endpoint : string)
    : Proc (option error) :=
  let url := BaseURL (config c) +:+ "/" +:+ endpoint in
  match http_NewRequest "DELETE" url None with
  | Err err => ret (Some ("failed to create request: " +:+ err))
  | Ok req =>
      let req := Header_Set "Authorization" (APISecret (config c)) req in
      let req := Header_Set "Content-Type" "application/json" req in
      resp <- Do (httpClient c) req ;;
      match resp with
      | Err err => ret (Some ("request failed: " +:+ err))
      | Ok resp =>
          if ((StatusCode resp <? 200) || (300 <=? StatusCode resp))%Z then
            let (body, _) := ioutil_ReadAll (Body resp) in
            ret (Some ("API error (status " +:+ fmt.verb_d (StatusCode resp)
                       +:+ "): " +:+ body))
          else ret None
      end
  end.

End Client.

(** ** Vocabulary of the statements *)

(** [sub] occurs in [s]. *)
Definition contains (sub s : string) : Prop :=
  exists pre post, s = pre +:+ sub +:+ post.

(** The path [loadConfig] works on once a leading tilde is expanded
    (the first block of the function). *)
Definition resolvedPath (rt : Runtime) (path : string) : result string :=
  match path with
  | String c rest =>
      if decide (c = "~"%char) then
        match os_UserHomeDir rt with
        | Ok home => Ok (filepath.Join [home; rest])
        | Err err => Err ("failed to get home directory: " +:+ err)
        end
      else Ok path
  | "" => Ok path
  end.

(** The events of that first block. *)
Definition resolveEvents (path : string) : list Event :=
  match path with
  | String c _ => if decide (c = "~"%char) then [EvUserHomeDir] else []
  | "" => []
  end.

(** What [loadConfig] does for a path: the external calls it makes, in
    order, and what it returns. *)
Definition loadConfigSteps (rt : Runtime) (path : string)
    : list Event * result Config :=
  match resolvedPath rt path with
  | Err err => (resolveEvents path, Err err)
  | Ok p =>
      match os_Stat rt p with
      | Err err =>
          (resolveEvents path ++ [EvStat p],
           Err ("failed to stat config file: " +:+ err))
      | Ok info =>
          if decide (Perm (Mode info) = 384%N) then
            (resolveEvents path ++ [EvStat p; EvReadFile p],
             match ioutil_ReadFile rt p with
             | Err err => Err ("failed to read config file: " +:+ err)
             | Ok data =>
                 match json_Unmarshal rt data with
                 | Err err => Err ("failed to parse config JSON: " +:+ err)
                 | Ok c =>
                     if decide (APISecret c = "") then
                       Err "api_secret is required in config file"
                     else if decide (BaseURL c = "") then
                       Err "base_url is required in config file"
                     else Ok c
                 end
             end)
          else
            (resolveEvents path ++ [EvStat p],
             Err ("config file must have 0600 permissions, has "
                  +:+ fmt.verb_o (Perm (Mode info))))
      end
  end.

(** The files a trace touches, in order. *)
Definition fileAccesses (tr : list Event) : list string :=
  omap (fun ev => match ev with
                  | EvStat name => Some name
                  | EvReadFile name => Some name
                  | _ => None
                  end) tr.

(** The files [loadConfig] touches for a path, in order. *)
Definition filesTouched (rt : Runtime) (path : string) : list string :=
  fileAccesses (trace (fst (loadConfig rt path
                              {| stdout := ""; stderr := ""; trace := [] |}))).

(** The world after more text on the two streams. *)
Definition output (out err : string) (w : World) : World :=
  {| stdout := stdout w +:+ out; stderr := stderr w +:+ err;
     trace := trace w |}.

(** The world after more external calls. *)
Definition record (evs : list Event) (w : World) : World :=
  {| stdout := stdout w; stderr := stderr w; trace := trace w ++ evs |}.

(** [m] does nothing but write [out] and [err] and end in [o]. *)
Definition prints {A} (m : Proc A) (out err : string) (o : Outcome A)
    : Prop :=
  forall w, m w = (output out err w, o).

(** [m] makes no external call: it leaves the trace as it is. *)
Definition quiet {A} (m : Proc A) : Prop :=
  forall w w' o, m w = (w', o) -> trace w' = trace w.

(** [m] returns only without having changed the world. *)
Definition returnsUnchanged {A} (m : Proc A) : Prop :=
  forall w w' a, m w = (w', Ret a) -> w' = w.

(** The workflow executions a trace records. *)
Definition executions (tr : list Event)
    : list (string * Config * list string) :=
  omap (fun ev => match ev with
                  | EvExecute name c args => Some (name, c, args)
                  | _ => None
                  end) tr.

Definition line (s : string) : string := s +:+ fmt.nl.

(** The text of [printUsage]. *)
Definition usageText (rt : Runtime) (WorkflowRegistry : gmap string Workflow)
    : string :=
  line "CyberArk API Command Harness"
  +:+ line (fmt.nl +:+ "Usage:")
  +:+ line "  cyberark [--global-options] workflow_name [--workflow-options]"
  +:+ line (fmt.nl +:+ "Global Options:")
  +:+ line "  -c, --config PATH    Path to configuration file (default: ~/.cyberark_api)"
  +:+ line "  -h, --help           Show this help message"
  +:+ line (fmt.nl +:+ "Built-in Workflows:")
  +:+ line "  verify               Verify API connectivity"
  +:+ line (fmt.nl +:+ "Registered Workflows:")
  +:+ foldr (fun name text => ("  " +:+ name +:+ fmt.nl) +:+ text)
        (line (fmt.nl +:+ "For workflow-specific help:")
         +:+ line "  cyberark workflow_name --help"
         +:+ "")
        (range_keys rt WorkflowRegistry).

(** The text of the verify workflow for a base URL. *)
Definition verifyText (baseURL : string) : string :=
  line "Verifying CyberArk API connectivity..."
  +:+ ("Base URL: " +:+ baseURL +:+ fmt.nl)
  +:+ line "API Secret: [REDACTED]"
  +:+ line (fmt.nl +:+ "✓ Configuration loaded successfully")
  +:+ line "✓ API credentials present"
  +:+ line (fmt.nl +:+ "Note: Actual API connectivity test not yet implemented")
  +:+ "".

(** Two configs that differ at most in the secret. *)
Definition sameButSecret (c1 c2 : Config) : Prop :=
  BaseURL c1 = BaseURL c2 /\ Username c1 = Username c2
  /\ Timeout c1 = Timeout c2.

(** The request a client operation is expected to send. *)
Definition expectedRequest (method : string) (c : APIClient)
    (endpoint : string) (body : option string) : Request :=
  {| Method := method;
     URL := BaseURL (config c) +:+ "/" +:+ endpoint;
     ReqBody := body;
     Header := <["Content-Type" := ["application/json"]]>
                 (<["Authorization" := [APISecret (config c)]]> ∅) |}.

(** Run from [w], [op] hands exactly the requests [reqs] to the transport. *)
Definition sends {A} (op : Proc A) (w : World) (reqs : list Request) : Prop :=
  trace (fst (op w)) = trace w ++ map EvDo reqs.

(** The error of a response that is not a success. *)
Definition apiError (status : Z) (body : string) : error :=
  "API error (status " +:+ fmt.verb_d status +:+ "): " +:+ body.

(** [rt] with another file content and another decoder. *)
Definition withContent (rt : Runtime)
    (readFile : string -> result string)
    (unmarshal : string -> result Config) : Runtime :=
  {| os_UserHomeDir := os_UserHomeDir rt;
     os_Stat := os_Stat rt;
     ioutil_ReadFile := readFile;
     json_Unmarshal := unmarshal;
     strconv_Quote := strconv_Quote rt;
     range_keys := range_keys rt |}.

(** ** Concrete machines and runs *)

Definition emptyWorld : World := {| stdout := ""; stderr := ""; trace := [] |}.

(** A machine whose only file is [file], with the given mode and content,
    the content decoding to [parsed]; the home directory is [home]. *)
Definition machine (home file : string) (mode : N) (content : string)
    (parsed : result Config) : Runtime :=
  {| os_UserHomeDir := Ok home;
     os_Stat := fun name =>
       if decide (name = file) then Ok {| Mode := mode |}
       else Err ("stat " +:+ name +:+ ": no such file or directory");
     ioutil_ReadFile := fun name =>
       if decide (name = file) then Ok content
       else Err ("open " +:+ name +:+ ": no such file or directory");
     json_Unmarshal := fun data =>
       if decide (data = content) then parsed
       else Err "unexpected end of JSON input";
     strconv_Quote := fun s => s;
     range_keys := fun m => (map_to_list m).*1 |}.

Definition sampleConfig : Config :=
  {| APISecret := "s"; BaseURL := "https://h/api"; Username := "";
     Timeout := 0 |}.

Definition otherSecret : Config :=
  {| APISecret := "another secret"; BaseURL := "https://h/api";
     Username := ""; Timeout := 0 |}.

Definition noSecret : Config :=
  {| APISecret := ""; BaseURL := "https://h/api"; Username := "";
     Timeout := 0 |}.

Definition noBaseURL : Config :=
  {| APISecret := "s"; BaseURL := ""; Username := ""; Timeout := 0 |}.

(** A workflow that prints a line and succeeds. *)
Definition helloWorkflow (text : string) : Workflow :=
  {| Execute := fun _ _ => Println text ;; ret None;
     Help := ret "prints a line" |}.

(** The machine of the scenarios: the default configuration file of user
    [u], mode 0600, decoding to [parsed]. *)
Definition laptop (parsed : Config) : Runtime :=
  machine "/home/u" "/home/u/.cyberark_api" 384 "{}" (Ok parsed).

(** The world after a successful load of the default file. *)
Definition loadedWorld : World :=
  {| stdout := ""; stderr := "";
     trace := [EvUserHomeDir; EvStat "/home/u/.cyberark_api";
               EvReadFile "/home/u/.cyberark_api"] |}.

(** A registry as the [init] function of the list-accounts workflow
    leaves it. *)
Definition sampleRegistry : gmap string Workflow :=
  RegisterWorkflow "list-accounts" (helloWorkflow "Listing CyberArk accounts...") ∅.

(** A server that answers every request with [status] and [body]; the
    payloads are strings that are already JSON. *)
Definition server (status : Z) (body : string) : Transport string :=
  {| json_Marshal := fun payload => Ok payload;
     http_NewRequest_error := fun _ _ => None;
     Client_Do := fun _ _ =>
       Ok {| StatusCode := status;
             Body := {| contents := body; readError := None |} |} |}.

(** ** The rest of main.go *)

(** [func checkFilePermissions(path string) error]; [GOOS] is
    [runtime.GOOS]. *)
Definition checkFilePermissions (rt : Runtime) (GOOS : string)
    (path : string) : Proc (option error) :=
  info <- Stat rt path ;;
  match info with
  | Err err => ret (Some err)
  | Ok info =>
      if decide (Perm (Mode info) <> 384%N) then
        if decide (GOOS <> "windows") then
          ret (Some "file must have 0600 permissions")
        else ret None
      else ret None
  end.

(** [name] cannot be taken for a flag: it is shorter than two bytes or
    does not begin with a dash. *)
Definition positional (name : string) : Prop :=
  match name with
  | String c (String _ _) => c <> "-"%char
  | _ => True
  end.

(** A workflow that fails with the given error. *)
Definition failingWorkflow (err : error) : Workflow :=
  {| Execute := fun _ _ => ret (Some err);
     Help := ret "fails" |}.

(** The text of [verify --help]. *)
Definition verifyHelpText : string :=
  line "Verify Workflow - Test CyberArk API connectivity"
  +:+ line (fmt.nl +:+ "Usage:")
  +:+ line "  cyberark verify [options]"
  +:+ line (fmt.nl +:+ "Options:")
  +:+ line "  -h, --help    Show this help message"
  +:+ "".

(** The usage text of the flag set [verify] (error stream). *)
Definition verifyUsageText : string :=
  ("Usage of verify:" +:+ fmt.nl)
  +:+ ("  -h" +:+ String "009" "Show help (shorthand)" +:+ fmt.nl)
  +:+ ("  -help" +:+ fmt.nl +:+ "    "
       +:+ String "009" "Show help for verify workflow" +:+ fmt.nl).

(** Two decoders that agree up to the secret: they fail alike, and where
    they succeed the configurations differ at most in the secret, which is
    empty in both or in neither. *)
Definition secretBlind (u1 u2 : string -> result Config) : Prop :=
  forall data,
    match u1 data, u2 data with
    | Ok c1, Ok c2 =>
        sameButSecret c1 c2 /\ (APISecret c1 = "" <-> APISecret c2 = "")
    | Err e1, Err e2 => e1 = e2
    | _, _ => False
    end.

(** ** Strings and the process monad *)

Lemma append_nil_r (s : string) : s +:+ "" = s.
Proof.
  induction s as [|c s IH]; [reflexivity|].
  change (String c (s +:+ "") = String c s). now rewrite IH.
Qed.

Lemma append_assoc (s1 s2 s3 : string) :
  (s1 +:+ s2) +:+ s3 = s1 +:+ (s2 +:+ s3).
Proof.
  induction s1 as [|c s1 IH]; [reflexivity|].
  change (String c ((s1 +:+ s2) +:+ s3) = String c (s1 +:+ (s2 +:+ s3))).
  now rewrite IH.
Qed.

Lemma output_nil (w : World) : output "" "" w = w.
Proof. destruct w; unfold output; simpl. now rewrite !append_nil_r. Qed.

Lemma output_output (o1 e1 o2 e2 : string) (w : World) :
  output o2 e2 (output o1 e1 w) = output (o1 +:+ o2) (e1 +:+ e2) w.
Proof. unfold output; simpl. now rewrite !append_assoc. Qed.


Lemma contains_intro (pre sub post : string) :
  contains sub (pre +:+ sub +:+ post).
Proof. now exists pre, post. Qed.

Lemma prints_ret {A} (a : A) : prints (ret a) "" "" (Ret a).
Proof. intros w. unfold ret. now rewrite output_nil. Qed.

Lemma prints_Exit {A} (code : Z) : prints (@os_Exit A code) "" "" (Exit code).
Proof. intros w. unfold os_Exit. now rewrite output_nil. Qed.

Lemma prints_Print (s : string) : prints (Print s) s "" (Ret tt).
Proof. intros w. unfold Print, output. now rewrite append_nil_r. Qed.

Lemma prints_Println (s : string) : prints (Println s) (line s) "" (Ret tt).
Proof. apply prints_Print. Qed.

Lemma prints_Stderr (s : string) : prints (Fprint_Stderr s) "" s (Ret tt).
Proof. intros w. unfold Fprint_Stderr, output. now rewrite append_nil_r. Qed.

Lemma prints_bind {A B} (m : Proc A) (k : A -> Proc B) a o1 e1 o2 e2 r :
  prints m o1 e1 (Ret a) -> prints (k a) o2 e2 r ->
  prints (bind m k) (o1 +:+ o2) (e1 +:+ e2) r.
Proof.
  intros Hm Hk w. unfold bind. rewrite Hm, Hk. now rewrite output_output.
Qed.

Lemma prints_for_range (f : string -> string) (names : list string) :
  prints (for_range names (fun name => Print (f name)))
    (foldr (fun name text => f name +:+ text) "" names) "" (Ret tt).
Proof.
  induction names as [|name names IH]; simpl.
  - apply prints_ret.
  - apply (prints_bind _ _ tt _ "" _ ""); [apply prints_Print | exact IH].
Qed.

Lemma foldr_append (f : string -> string) (names : list string) (s : string) :
  foldr (fun name text => f name +:+ text) "" names +:+ s
  = foldr (fun name text => f name +:+ text) s names.
Proof.
  induction names as [|name names IH]; simpl; [reflexivity|].
  now rewrite append_assoc, IH.
Qed.

Lemma prints_printUsage (rt : Runtime) (reg : gmap string Workflow) :
  prints (printUsage rt reg) (usageText rt reg) "" (Ret tt).
Proof.
  unfold printUsage, usageText.
  do 9 (apply (prints_bind _ _ tt _ "" _ ""); [apply prints_Println|]).
  rewrite <- foldr_append.
  apply (prints_bind _ _ tt _ "" _ ""); [apply prints_for_range|].
  apply (prints_bind _ _ tt _ "" _ ""); [apply prints_Println|].
  rewrite append_nil_r. apply prints_Println.
Qed.

(** ** The configuration loader *)

#[local] Opaque filepath.Join.

Lemma loadConfig_steps (rt : Runtime) (path : string) (w : World) :
  loadConfig rt path w
  = (record (fst (loadConfigSteps rt path)) w,
     Ret (snd (loadConfigSteps rt path))).
Proof.
  unfold loadConfig, loadConfigSteps, resolvedPath, resolveEvents.
  unfold bind, ret, UserHomeDir, Stat, ReadFile, emit, record.
  destruct path as [|c rest]; [|destruct (decide (c = "~"%char))]; simpl.
  2: destruct (os_UserHomeDir rt) as [home|err]; simpl;
       [generalize (filepath.Join [home; rest]); intros p|].
  all: repeat (case_match; simpl; try congruence); try (exfalso; eauto; fail).
  all: rewrite <- ?app_assoc, ?app_nil_r; reflexivity.
Qed.

#[local] Transparent filepath.Join.

Lemma read_o_verb_o (n : N) : fmt.read_o (fmt.verb_o n) = n.
Proof.
  destruct n as [|p]; [reflexivity|].
  unfold fmt.read_o, fmt.verb_o. now rewrite OctalString.Raw.to_N_of_pos.
Qed.

Lemma loadConfigSteps_withContent (rt : Runtime) readFile unmarshal path :
  resolvedPath (withContent rt readFile unmarshal) path = resolvedPath rt path.
Proof. reflexivity. Qed.

(** What a successful load implies: the resolved file exists with the
    permission bits 0600, it was read, its content decoded, and the two
    required fields are not empty. *)
Lemma loadConfig_Ok (rt : Runtime) (path : string) (w w' : World) (c : Config) :
  loadConfig rt path w = (w', Ret (Ok c)) ->
  exists p info data,
    resolvedPath rt path = Ok p
    /\ os_Stat rt p = Ok info
    /\ Perm (Mode info) = 384%N
    /\ ioutil_ReadFile rt p = Ok data
    /\ json_Unmarshal rt data = Ok c
    /\ APISecret c <> "" /\ BaseURL c <> ""
    /\ w' = record (resolveEvents path ++ [EvStat p; EvReadFile p]) w.
Proof.
  rewrite loadConfig_steps. unfold loadConfigSteps.
  destruct (resolvedPath rt path) as [p|err] eqn:Hp; simpl; [|congruence].
  destruct (os_Stat rt p) as [info|err] eqn:Hstat; simpl; [|congruence].
  destruct (decide (Perm (Mode info) = 384%N)); simpl; [|congruence].
  destruct (ioutil_ReadFile rt p) as [data|err] eqn:Hread; simpl;
    [|congruence].
  destruct (json_Unmarshal rt data) as [c'|err] eqn:Hjson; simpl;
    [|congruence].
  destruct (decide (APISecret c' = "")); [congruence|].
  destruct (decide (BaseURL c' = "")); [congruence|].
  intros [= <- <-]. exists p, info, data.
  repeat split; assumption || reflexivity.
Qed.

(** C1.  When the file that the path resolves to exists and its permission
    bits are not 0600, [loadConfig] returns the permission error, whose text
    ends with the bits found in octal (reading the numeral back gives the
    bits); the only file access is the [Stat], and the result is the same
    whatever the file contains and however it would decode. *)
Theorem loadConfig_rejects_permissions (rt : Runtime) (path p : string)
    (info : FileInfo) (w : World) :
  resolvedPath rt path = Ok p ->
  os_Stat rt p = Ok info ->
  Perm (Mode info) <> 384%N ->
  let bits := fmt.verb_o (Perm (Mode info)) in
  let answer :=
    (record (resolveEvents path ++ [EvStat p]) w,
     Ret (Err ("config file must have 0600 permissions, has " +:+ bits))) in
  loadConfig rt path w = answer
  /\ fmt.read_o bits = Perm (Mode info)
  /\ forall readFile unmarshal,
       loadConfig (withContent rt readFile unmarshal) path w = answer.
Proof.
  intros Hp Hstat Hmode bits answer.
  assert (forall readFile unmarshal,
             loadConfig (withContent rt readFile unmarshal) path w = answer)
    as Hany.
  { intros readFile unmarshal. rewrite loadConfig_steps.
    unfold loadConfigSteps. rewrite loadConfigSteps_withContent, Hp.
    simpl. rewrite Hstat.
    destruct (decide (Perm (Mode info) = 384%N)); [contradiction|].
    reflexivity. }
  split; [|split].
  - specialize (Hany (ioutil_ReadFile rt) (json_Unmarshal rt)).
    destruct rt; exact Hany.
  - apply read_o_verb_o.
  - exact Hany.
Qed.

Lemma loadConfig_rejects_permissions_witness :
  let rt := machine "/home/u" "/home/u/.cyberark_api" 420 "{}" (Ok sampleConfig) in
  resolvedPath rt "~/.cyberark_api" = Ok "/home/u/.cyberark_api"
  /\ os_Stat rt "/home/u/.cyberark_api" = Ok {| Mode := 420 |}
  /\ Perm 420 <> 384%N
  /\ loadConfig rt "~/.cyberark_api" emptyWorld
     = ({| stdout := ""; stderr := "";
           trace := [EvUserHomeDir; EvStat "/home/u/.cyberark_api"] |},
        Ret (Err "config file must have 0600 permissions, has 644")).
Proof.
  intros rt.
  split; [reflexivity|]. split; [reflexivity|].
  split; [vm_compute; discriminate|].
  refine (proj1 (loadConfig_rejects_permissions rt "~/.cyberark_api"
                   "/home/u/.cyberark_api" {| Mode := 420 |} emptyWorld
                   _ _ _));
    [reflexivity | reflexivity | vm_compute; discriminate].
Defined.

(** C3.  When the file passes the permission check, is read and decodes to
    [c]: an empty [api_secret] gives the error naming [api_secret] (checked
    first), otherwise an empty [base_url] gives the error naming
    [base_url], otherwise [c] is returned; and whatever [loadConfig]
    returns as a config has both fields non-empty. *)
Theorem loadConfig_validates_required_fields (rt : Runtime) (path p : string)
    (info : FileInfo) (data : string) (c : Config) (w : World) :
  resolvedPath rt path = Ok p ->
  os_Stat rt p = Ok info ->
  Perm (Mode info) = 384%N ->
  ioutil_ReadFile rt p = Ok data ->
  json_Unmarshal rt data = Ok c ->
  let w' := record (resolveEvents path ++ [EvStat p; EvReadFile p]) w in
  (APISecret c = "" ->
   loadConfig rt path w
   = (w', Ret (Err "api_secret is required in config file")))
  /\ (APISecret c <> "" -> BaseURL c = "" ->
      loadConfig rt path w
      = (w', Ret (Err "base_url is required in config file")))
  /\ (APISecret c <> "" -> BaseURL c <> "" ->
      loadConfig rt path w = (w', Ret (Ok c)))
  /\ (forall w1 c1, loadConfig rt path w = (w1, Ret (Ok c1)) ->
      APISecret c1 <> "" /\ BaseURL c1 <> "").
Proof.
  intros Hp Hstat Hmode Hread Hjson w'.
  assert (loadConfig rt path w
          = (w', Ret (if decide (APISecret c = "") then
                        Err "api_secret is required in config file"
                      else if decide (BaseURL c = "") then
                        Err "base_url is required in config file"
                      else Ok c))) as Hload.
  { rewrite loadConfig_steps. unfold loadConfigSteps.
    rewrite Hp, Hstat. destruct (decide _) as [_|Hne]; [|contradiction].
    simpl. now rewrite Hread, Hjson. }
  repeat apply conj.
  - intros Hs. rewrite Hload. now destruct (decide (APISecret c = "")).
  - intros Hs Hb. rewrite Hload.
    destruct (decide (APISecret c = "")); [contradiction|].
    now destruct (decide (BaseURL c = "")).
  - intros Hs Hb. rewrite Hload.
    destruct (decide (APISecret c = "")); [contradiction|].
    now destruct (decide (BaseURL c = "")).
  - intros w1 c1 Hok. apply loadConfig_Ok in Hok.
    destruct Hok as (p1 & info1 & data1 & _ & _ & _ & _ & _ & Hs & Hb & _).
    now split.
Qed.

Lemma loadConfig_validates_required_fields_witness :
  let file := "/etc/cyberark.json" in
  let run parsed :=
    loadConfig (machine "/home/u" file 384 "{}" (Ok parsed)) file emptyWorld in
  let w' := {| stdout := ""; stderr := "";
               trace := [EvStat file; EvReadFile file] |} in
  run noSecret = (w', Ret (Err "api_secret is required in config file"))
  /\ run noBaseURL = (w', Ret (Err "base_url is required in config file"))
  /\ run sampleConfig = (w', Ret (Ok sampleConfig))
  /\ APISecret sampleConfig <> "" /\ BaseURL sampleConfig <> "".
Proof.
  intros file run w'.
  pose proof (fun parsed =>
    loadConfig_validates_required_fields
      (machine "/home/u" file 384 "{}" (Ok parsed)) file file
      {| Mode := 384 |} "{}" parsed emptyWorld
      eq_refl eq_refl eq_refl eq_refl eq_refl) as H.
  split; [exact (proj1 (H noSecret) eq_refl)|].
  split; [refine (proj1 (proj2 (H noBaseURL)) _ eq_refl); discriminate|].
  split; [refine (proj1 (proj2 (proj2 (H sampleConfig))) _ _); discriminate|].
  refine (proj2 (proj2 (proj2 (H sampleConfig))) w' sampleConfig _).
  refine (proj1 (proj2 (proj2 (H sampleConfig))) _ _); discriminate.
Defined.

(** ** The workflow registry *)

(** C7.  After registering [h1] and then [h2] under one name, the name
    resolves to [h2], every other name resolves as before, and the registry
    is the one that registering [h2] alone gives: the first registration
    leaves no mark. *)
Theorem RegisterWorkflow_last_wins (name : string) (h1 h2 : Workflow)
    (reg : gmap string Workflow) :
  let reg' := RegisterWorkflow name h2 (RegisterWorkflow name h1 reg) in
  reg' !! name = Some h2
  /\ (forall other, other <> name -> reg' !! other = reg !! other)
  /\ reg' = RegisterWorkflow name h2 reg.
Proof.
  unfold RegisterWorkflow. repeat apply conj.
  - apply lookup_insert_eq.
  - intros other Hne. rewrite !lookup_insert_ne; [reflexivity | | ]; congruence.
  - apply insert_insert_eq.
Qed.

Lemma RegisterWorkflow_last_wins_witness :
  let first := helloWorkflow "first" in
  let second := helloWorkflow "second" in
  let reg := RegisterWorkflow "list-accounts" first ∅ in
  let reg' := RegisterWorkflow "rotate" second
                (RegisterWorkflow "rotate" first reg) in
  "list-accounts" <> "rotate"
  /\ reg' !! "rotate" = Some second
  /\ reg' !! "list-accounts" = Some first.
Proof.
  intros first second reg reg'.
  assert ("list-accounts" <> "rotate") as Hne by discriminate.
  pose proof (RegisterWorkflow_last_wins "rotate" first second reg)
    as (Hsame & Hother & _).
  split; [exact Hne|]. split; [exact Hsame|].
  etransitivity; [exact (Hother "list-accounts" Hne)|].
  unfold reg, RegisterWorkflow. apply lookup_insert_eq.
Defined.

(** ** Path cleaning and the tilde *)

Lemma append_cons (c : ascii) (s t : string) : String c s +:+ t = String c (s +:+ t).
Proof. reflexivity. Qed.

Lemma split_nonempty (s : string) : filepath.split s <> [].
Proof.
  induction s as [|c s IH]; [discriminate|]. simpl.
  destruct (decide (c = "/"%char)); [discriminate|].
  destruct (filepath.split s); discriminate.
Qed.

Lemma split_append_slash (a b : string) :
  filepath.split (a +:+ "/" +:+ b) = filepath.split a ++ filepath.split b.
Proof.
  induction a as [|c a IH].
  - reflexivity.
  - rewrite append_cons. simpl.
    destruct (decide (c = "/"%char)); [now rewrite IH|].
    rewrite IH. pose proof (split_nonempty a) as Hne.
    destruct (filepath.split a); [contradiction | reflexivity].
Qed.

Lemma join_snoc (l : list string) (x : string) :
  l <> [] -> filepath.join (l ++ [x]) = filepath.join l +:+ "/" +:+ x.
Proof.
  induction l as [|e l IH]; [contradiction|]. intros _.
  destruct l as [|e' l].
  - reflexivity.
  - change (e +:+ "/" +:+ filepath.join ((e' :: l) ++ [x])
            = (e +:+ "/" +:+ filepath.join (e' :: l)) +:+ "/" +:+ x).
    rewrite IH by discriminate. now rewrite !append_assoc.
Qed.

Lemma isRooted_append (a b : string) :
  filepath.isRooted a = true -> filepath.isRooted (a +:+ b) = true.
Proof. destruct a; [discriminate | exact id]. Qed.

Lemma Join_two (home s : string) :
  home <> "" -> filepath.Join [home; s] = filepath.Clean (home +:+ "/" +:+ s).
Proof.
  intros Hne. unfold filepath.Join.
  destruct (decide (home = "")); [contradiction | reflexivity].
Qed.

Lemma Clean_child (home name : string) :
  filepath.isRooted home = true -> filepath.Clean home = home ->
  home <> "/" ->
  filepath.split name = [name] -> name <> "" -> name <> "." -> name <> ".." ->
  filepath.Clean (home +:+ "/" +:+ "/" +:+ name) = home +:+ "/" +:+ name.
Proof.
  intros Hroot Hclean Hhome Hsplit Hn0 Hn1 Hn2.
  unfold filepath.Clean in *.
  destruct (decide (home = "")) as [->|_]; [discriminate|].
  destruct (decide (home +:+ "/" +:+ "/" +:+ name = "")) as [He|_].
  { destruct home; discriminate. }
  rewrite isRooted_append by exact Hroot. rewrite Hroot in Hclean.
  cbv zeta in *.
  rewrite split_append_slash, fold_left_app.
  set (st := fold_left (filepath.visit true) (filepath.split home) []) in *.
  change (filepath.split ("/" +:+ name)) with ("" :: filepath.split name).
  rewrite Hsplit. simpl fold_left.
  unfold filepath.visit at 2. simpl.
  unfold filepath.visit.
  destruct (decide (name = "")); [contradiction|].
  destruct (decide (name = ".")); [contradiction|].
  destruct (decide (name = "..")); [contradiction|].
  simpl rev. rewrite join_snoc.
  - rewrite <- Hclean. reflexivity.
  - intros Hnil. rewrite Hnil in Hclean. apply Hhome. now rewrite <- Hclean.
Qed.

Lemma loadConfigSteps_same_file (rt : Runtime) (path1 path2 p : string) :
  resolvedPath rt path1 = Ok p -> resolvedPath rt path2 = Ok p ->
  snd (loadConfigSteps rt path1) = snd (loadConfigSteps rt path2)
  /\ fileAccesses (fst (loadConfigSteps rt path1))
     = fileAccesses (fst (loadConfigSteps rt path2)).
Proof.
  intros H1 H2. unfold loadConfigSteps. rewrite H1, H2.
  assert (forall path, fileAccesses (resolveEvents path) = []) as Hres.
  { intros [|c rest]; [reflexivity|]. unfold resolveEvents.
    now destruct (decide (c = "~"%char)). }
  unfold fileAccesses in *.
  destruct (os_Stat rt p) as [info|err]; [destruct (decide _)|];
    simpl; rewrite !omap_app, !Hres; split; reflexivity.
Qed.

Lemma filesTouched_resolved (rt : Runtime) (path p : string) :
  resolvedPath rt path = Ok p ->
  filesTouched rt path = [p] \/ filesTouched rt path = [p; p].
Proof.
  intros Hp. unfold filesTouched. rewrite loadConfig_steps.
  unfold loadConfigSteps. rewrite Hp.
  assert (fileAccesses (resolveEvents path) = []) as Hres.
  { destruct path as [|c rest]; [reflexivity|]. unfold resolveEvents.
    now destruct (decide (c = "~"%char)). }
  unfold fileAccesses in *.
  destruct (os_Stat rt p) as [info|err]; [destruct (decide _)|];
    simpl; rewrite omap_app, Hres; simpl; auto.
Qed.

Lemma resolvedPath_tilde (rt : Runtime) (home s : string) :
  os_UserHomeDir rt = Ok home ->
  resolvedPath rt ("~" +:+ s) = Ok (filepath.Join [home; s]).
Proof.
  intros Hhome. change ("~" +:+ s) with (String "~" s). unfold resolvedPath.
  destruct (decide ("~"%char = "~"%char)); [|contradiction].
  now rewrite Hhome.
Qed.

Lemma resolvedPath_rooted (rt : Runtime) (path : string) :
  filepath.isRooted path = true -> resolvedPath rt path = Ok path.
Proof.
  destruct path as [|c rest]; [discriminate|]. simpl.
  intros Hc. apply bool_decide_eq_true in Hc. subst c.
  now destruct (decide ("/"%char = "~"%char)).
Qed.

(** C8, as amended.  With home directory [home] (not empty),
    [loadConfig] on ["~" + s] resolves to [filepath.Join(home, s)], that is
    the lexically cleaned [home + "/" + s]; the home directory is looked up
    first, the first file access is the [Stat] of that path and no other
    file is touched.  When [home] is a clean absolute path other than the
    root and [s] is a slash and one plain file name, the path is
    [home + s], so that [loadConfig] on ["~" + s] and on [home + s] touch
    the same file and return the same result. *)
Theorem loadConfig_expands_tilde (rt : Runtime) (home s name : string)
    (w : World) :
  os_UserHomeDir rt = Ok home -> home <> "" ->
  let p := filepath.Clean (home +:+ "/" +:+ s) in
  resolvedPath rt ("~" +:+ s) = Ok p
  /\ (filesTouched rt ("~" +:+ s) = [p]
      \/ filesTouched rt ("~" +:+ s) = [p; p])
  /\ (exists evs r,
        loadConfig rt ("~" +:+ s) w
        = (record (EvUserHomeDir :: EvStat p :: evs) w, Ret r))
  /\ (s = "/" +:+ name ->
      filepath.isRooted home = true -> filepath.Clean home = home ->
      home <> "/" ->
      filepath.split name = [name] ->
      name <> "" -> name <> "." -> name <> ".." ->
      p = home +:+ s
      /\ filesTouched rt ("~" +:+ s) = filesTouched rt (home +:+ s)
      /\ snd (loadConfig rt ("~" +:+ s) w)
         = snd (loadConfig rt (home +:+ s) w)).
Proof.
  intros Hhome Hne p.
  assert (resolvedPath rt ("~" +:+ s) = Ok p) as Hp.
  { rewrite (resolvedPath_tilde rt home s Hhome). now rewrite Join_two. }
  split; [exact Hp|]. split; [now apply filesTouched_resolved|]. split.
  - rewrite loadConfig_steps. unfold loadConfigSteps. rewrite Hp.
    change (resolveEvents ("~" +:+ s)) with [EvUserHomeDir].
    destruct (os_Stat rt p) as [info|err]; [destruct (decide _)|];
      simpl; eauto.
  - intros -> Hroot Hclean Hroot' Hsplit Hn0 Hn1 Hn2.
    assert (p = home +:+ "/" +:+ name) as Hchild.
    { unfold p. now apply Clean_child. }
    split; [exact Hchild|].
    assert (resolvedPath rt (home +:+ "/" +:+ name) = Ok p) as Hp'.
    { rewrite Hchild. apply resolvedPath_rooted.
      now apply isRooted_append. }
    destruct (loadConfigSteps_same_file rt _ _ p Hp Hp') as [Hres Hfiles].
    split.
    + unfold filesTouched. now rewrite !loadConfig_steps.
    + rewrite !loadConfig_steps. simpl. now rewrite Hres.
Qed.

Lemma loadConfig_expands_tilde_witness :
  let rt := machine "/home/u" "/home/u/.x" 384 "{}" (Ok sampleConfig) in
  resolvedPath rt "~/.x" = Ok "/home/u/.x"
  /\ filesTouched rt "~/.x" = filesTouched rt "/home/u/.x"
  /\ snd (loadConfig rt "~/.x" emptyWorld)
     = snd (loadConfig rt "/home/u/.x" emptyWorld).
Proof.
  intros rt.
  pose proof (loadConfig_expands_tilde rt "/home/u" "/.x" ".x" emptyWorld
                eq_refl) as H.
  destruct H as (Hp & _ & _ & Hsame); [discriminate|].
  split; [exact Hp|].
  destruct Hsame as (_ & Hfiles & Hres);
    [reflexivity | reflexivity | reflexivity | discriminate | reflexivity
    | discriminate | discriminate | discriminate | ].
  split; [exact Hfiles | exact Hres].
Defined.

(** C8 as stated fails: with home directory [/home/u] and the suffix
    [/a/../.x], the path ["~" + s] is cleaned to [/home/u/.x] while
    [home + "/" + s] is used as it is; on a machine where [/home/u/.x] is
    the only file (there is no directory [a]) the first load succeeds and
    the second fails. *)
Lemma tilde_suffix_counterexample :
  let rt := machine "/home/u" "/home/u/.x" 384 "{}" (Ok sampleConfig) in
  let home := "/home/u" in
  let s := "/a/../.x" in
  os_UserHomeDir rt = Ok home
  /\ filesTouched rt ("~" +:+ s) = ["/home/u/.x"; "/home/u/.x"]
  /\ filesTouched rt (home +:+ "/" +:+ s) = ["/home/u//a/../.x"]
  /\ filesTouched rt ("~" +:+ s) <> filesTouched rt (home +:+ "/" +:+ s)
  /\ snd (loadConfig rt ("~" +:+ s) emptyWorld) = Ret (Ok sampleConfig)
  /\ snd (loadConfig rt (home +:+ "/" +:+ s) emptyWorld)
     = Ret (Err "failed to stat config file: stat /home/u//a/../.x: no such file or directory").
Proof.
  intros rt home s. repeat apply conj; try reflexivity.
  vm_compute. discriminate.
Qed.

(** ** Flag parsing *)

Lemma quiet_ret {A} (a : A) : quiet (ret a).
Proof. intros w w' o [= <- _]. reflexivity. Qed.

Lemma quiet_Exit {A} (code : Z) : quiet (@os_Exit A code).
Proof. intros w w' o [= <- _]. reflexivity. Qed.

Lemma quiet_prints {A} (m : Proc A) out err o : prints m out err o -> quiet m.
Proof. intros Hm w w' o'. rewrite Hm. intros [= <- _]. reflexivity. Qed.

Lemma quiet_bind {A B} (m : Proc A) (k : A -> Proc B) :
  quiet m -> (forall a, quiet (k a)) -> quiet (bind m k).
Proof.
  intros Hm Hk w w' o. unfold bind.
  destruct (m w) as [w1 [a|code]] eqn:Hmw.
  - intros Hka. rewrite (Hk a _ _ _ Hka). exact (Hm _ _ _ Hmw).
  - intros [= <- _]. exact (Hm _ _ _ Hmw).
Qed.

Lemma quiet_failf {V A} (f : flag.FlagSet V) (msg : string) :
  quiet (flag.Usage f) -> quiet (@flag.failf V f A msg).
Proof.
  intros Hu. unfold flag.failf.
  apply quiet_bind; [exact (quiet_prints _ _ _ _ (prints_Stderr _))|].
  intros _. apply quiet_bind; [exact Hu|]. intros _. apply quiet_Exit.
Qed.

Lemma quiet_Parse (rt : Runtime) {V} (f : flag.FlagSet V) :
  quiet (flag.Usage f) ->
  forall args v, quiet (flag.Parse rt f v args).
Proof.
  intros Hu args.
  induction args as [args IH] using (induction_ltof1 _ (@length string)).
  unfold ltof in IH. intros v.
  destruct args as [|s rest]; [apply quiet_ret|].
  simpl flag.Parse.
  repeat (case_match; try apply quiet_ret;
          try (apply quiet_failf; assumption)).
  all: try (apply IH; simpl; lia).
  all: apply quiet_bind; [exact Hu | intros _; apply quiet_Exit].
Qed.

Lemma returnsUnchanged_ret {A} (a : A) : returnsUnchanged (ret a).
Proof. intros w w' a' [= <- _]. reflexivity. Qed.

Lemma returnsUnchanged_then_Exit {A B C} (m1 : Proc A) (m2 : Proc B)
    (code : Z) :
  returnsUnchanged (m1 ;; m2 ;; @os_Exit C code).
Proof.
  intros w w' a. unfold bind, os_Exit.
  destruct (m1 w) as [w1 [a1|c1]]; [|discriminate].
  destruct (m2 w1) as [w2 [a2|c2]]; discriminate.
Qed.

Lemma returnsUnchanged_Parse (rt : Runtime) {V} (f : flag.FlagSet V) :
  forall args v, returnsUnchanged (flag.Parse rt f v args).
Proof.
  intros args.
  induction args as [args IH] using (induction_ltof1 _ (@length string)).
  unfold ltof in IH. intros v.
  destruct args as [|s rest]; [apply returnsUnchanged_ret|].
  simpl flag.Parse.
  repeat (case_match; try apply returnsUnchanged_ret;
          try apply returnsUnchanged_then_Exit).
  all: try (apply IH; simpl; lia).
  all: intros w w' r; unfold bind, os_Exit;
    destruct (flag.Usage f w) as [w1 [[]|c1]]; discriminate.
Qed.
(** ** The verify workflow *)

Lemma prints_verifyConnectivity (rt : Runtime) (c : Config) :
  prints (verifyConnectivity rt c []) (verifyText (BaseURL c)) "" (Ret None).
Proof.
  assert (prints
            (Println "Verifying CyberArk API connectivity..." ;;
             Print ("Base URL: " +:+ BaseURL c +:+ fmt.nl) ;;
             Println "API Secret: [REDACTED]" ;;
             Println (fmt.nl +:+ "✓ Configuration loaded successfully") ;;
             Println "✓ API credentials present" ;;
             Println (fmt.nl +:+ "Note: Actual API connectivity test not yet implemented") ;;
             ret (None : option error))
            (verifyText (BaseURL c)) "" (Ret None)) as Hbody.
  { unfold verifyText.
    do 1 (apply (prints_bind _ _ tt _ "" _ ""); [apply prints_Println|]).
    do 1 (apply (prints_bind _ _ tt _ "" _ ""); [apply prints_Print|]).
    do 4 (apply (prints_bind _ _ tt _ "" _ ""); [apply prints_Println|]).
    apply prints_ret. }
  exact Hbody.
Qed.

(** The verify workflow reads the configuration through the base URL
    only, whatever its arguments. *)
Lemma verifyConnectivity_BaseURL (rt : Runtime) (c1 c2 : Config)
    (args : list string) (w : World) :
  BaseURL c1 = BaseURL c2 ->
  verifyConnectivity rt c1 args w = verifyConnectivity rt c2 args w.
Proof. intros H. unfold verifyConnectivity. now rewrite H. Qed.

Lemma quiet_verifyDefaultUsage : quiet verifyDefaultUsage.
Proof.
  unfold verifyDefaultUsage.
  repeat (apply quiet_bind; [|intros _]);
    exact (quiet_prints _ _ _ _ (prints_Stderr _)).
Qed.

Lemma verifyConnectivity_outcome (rt : Runtime) (c : Config)
    (args : list string) (w w' : World) (o : Outcome (option error)) :
  verifyConnectivity rt c args w = (w', o) ->
  trace w' = trace w /\ (o = Ret None \/ exists code, o = Exit code).
Proof.
  unfold verifyConnectivity. unfold bind at 1.
  match goal with |- context [flag.Parse rt ?f false args w] =>
    pose proof (quiet_Parse rt f quiet_verifyDefaultUsage args false w) as Hq;
    destruct (flag.Parse rt f false args w) as [w1 [[help rest]|code]]
  end.
  - specialize (Hq _ _ eq_refl). simpl fst.
    destruct help.
    + match goal with |- ?m w1 = _ -> _ =>
        assert (exists out, prints m out "" (Ret (None : option error)))
          as [out Hm]
      end.
      { eexists.
        do 5 (eapply (prints_bind _ _ tt _ "" _ ""); [apply prints_Println|]).
        apply prints_ret. }
      rewrite Hm. intros [= <- <-]. split; [exact Hq | now left].
    +       match goal with |- ?m w1 = _ -> _ =>
        assert (exists out, prints m out "" (Ret (None : option error)))
          as [out Hm]
      end.
      { eexists.
        do 1 (eapply (prints_bind _ _ tt _ "" _ ""); [apply prints_Println|]).
        do 1 (eapply (prints_bind _ _ tt _ "" _ ""); [apply prints_Print|]).
        do 4 (eapply (prints_bind _ _ tt _ "" _ ""); [apply prints_Println|]).
        apply prints_ret. }
      rewrite Hm. intros [= <- <-]. split; [exact Hq | now left].
  - specialize (Hq _ _ eq_refl). intros [= <- <-]. split; [exact Hq|].
    right. now exists code.
Qed.
(** ** The dispatcher *)

Lemma executions_loadConfigSteps (rt : Runtime) (path : string) :
  executions (fst (loadConfigSteps rt path)) = [].
Proof.
  assert (executions (resolveEvents path) = []) as Hres.
  { destruct path as [|c rest]; [reflexivity|]. unfold resolveEvents.
    now destruct (decide (c = "~"%char)). }
  unfold loadConfigSteps, executions in *.
  destruct (resolvedPath rt path) as [p|err]; [|exact Hres].
  destruct (os_Stat rt p) as [info|err]; [destruct (decide _)|];
    simpl; rewrite omap_app, Hres; reflexivity.
Qed.

Lemma loadConfig_world (rt : Runtime) (path : string) (w w' : World)
    (o : Outcome (result Config)) :
  loadConfig rt path w = (w', o) ->
  stdout w' = stdout w /\ stderr w' = stderr w
  /\ executions (trace w') = executions (trace w)
  /\ exists r, o = Ret r.
Proof.
  rewrite loadConfig_steps. intros [= <- <-]. simpl.
  repeat split; eauto.
  unfold executions. rewrite omap_app.
  fold (executions (fst (loadConfigSteps rt path))).
  rewrite executions_loadConfigSteps. apply app_nil_r.
Qed.

(** C5.  Run with no argument at all, [main] writes the line
    [Error: workflow name required] and then the usage text, both to the
    standard output; it writes nothing to the error stream, makes no
    external call (the configuration is not loaded, no workflow runs) and
    exits with status 1. *)
Theorem main_no_workflow_name (rt : Runtime) (reg : gmap string Workflow)
    (w : World) :
  exists w',
    main rt reg [] w = (w', Exit 1)
    /\ stdout w'
       = stdout w +:+ line "Error: workflow name required"
         +:+ usageText rt reg
    /\ stderr w' = stderr w
    /\ trace w' = trace w.
Proof.
  assert (prints (Println "Error: workflow name required" ;;
                  printUsage rt reg ;; @os_Exit unit 1)
            (line "Error: workflow name required" +:+ usageText rt reg +:+ "")
            "" (Exit 1)) as Hp.
  { apply (prints_bind _ _ tt _ "" _ ""); [apply prints_Println|].
    apply (prints_bind _ _ tt _ "" _ ""); [apply prints_printUsage|].
    apply prints_Exit. }
  eexists. split; [exact (Hp w)|]. simpl.
  rewrite !append_nil_r. repeat split; reflexivity.
Qed.

(** C9.  When the first positional argument is neither [verify] nor a
    registered name, the run ends with exit status 1 and without any
    workflow execution; once the configuration is loaded, [main] writes
    the unknown-workflow line naming the argument to the error stream and
    the usage text to the standard output. *)
Theorem main_unknown_workflow (rt : Runtime) (reg : gmap string Workflow)
    (osArgs : list string) (w w1 : World) (g : GlobalFlags) (name : string)
    (wargs : list string) :
  flag.Parse rt (CommandLine rt reg) flagDefaults osArgs w
  = (w1, Ret (g, name :: wargs)) ->
  showHelp g = false ->
  name <> "verify" ->
  reg !! name = None ->
  exists w',
    main rt reg osArgs w = (w', Exit 1)
    /\ executions (trace w') = executions (trace w)
    /\ forall w2 c,
         loadConfig rt (configPath g) w1 = (w2, Ret (Ok c)) ->
         stderr w' = stderr w +:+ "Error: unknown workflow '" +:+ name
                     +:+ "'" +:+ fmt.nl
         /\ stdout w' = stdout w +:+ usageText rt reg
         /\ trace w' = trace w2.
Proof.
  intros HP Hhelp Hname Hreg.
  assert (w1 = w) as -> by exact (returnsUnchanged_Parse rt _ _ _ _ _ _ HP).
  unfold main. unfold bind at 1. rewrite HP. cbv iota beta. rewrite Hhelp.
  unfold bind at 1.
  destruct (loadConfig rt (configPath g) w) as [w2 o] eqn:HL.
  destruct (loadConfig_world rt _ _ _ _ HL) as (Hout & Herr & Hex & r & ->).
  destruct r as [c|err].
  - destruct (decide (name = "verify")); [contradiction|]. rewrite Hreg.
    assert (prints
              (Fprint_Stderr ("Error: unknown workflow '" +:+ name +:+ "'"
                              +:+ fmt.nl) ;;
               printUsage rt reg ;; @os_Exit unit 1)
              ("" +:+ usageText rt reg +:+ "")
              (("Error: unknown workflow '" +:+ name +:+ "'" +:+ fmt.nl)
               +:+ "" +:+ "")
              (Exit 1)) as Hp.
    { apply prints_bind with (a := tt); [apply prints_Stderr|].
      apply prints_bind with (a := tt); [apply prints_printUsage|].
      apply prints_Exit. }
    eexists. split; [exact (Hp w2)|]. simpl.
    rewrite !append_nil_r, Hout, Herr. split; [exact Hex|].
    intros w2' c' [= <- _]. repeat split; reflexivity.
  - assert (prints
              (Fprint_Stderr ("Error loading config: " +:+ err +:+ fmt.nl) ;;
               @os_Exit unit 1)
              ("" +:+ "")
              (("Error loading config: " +:+ err +:+ fmt.nl) +:+ "")
              (Exit 1)) as Hp.
    { apply prints_bind with (a := tt); [apply prints_Stderr|].
      apply prints_Exit. }
    eexists. split; [exact (Hp w2)|]. simpl.
    split; [exact Hex|]. intros w2' c' [=].
Qed.

(** C10.  Whatever handler [h] is registered under the name [verify],
    the subcommand [verify] runs the built-in check: the run ends in the
    world in which [verifyConnectivity] ends, with its exit, and the trace
    records no workflow execution. *)
Theorem verify_shadows_registry (rt : Runtime) (reg : gmap string Workflow)
    (h : Workflow) (osArgs : list string) (w w1 w2 : World) (g : GlobalFlags)
    (wargs : list string) (c : Config) :
  let reg' := RegisterWorkflow "verify" h reg in
  flag.Parse rt (CommandLine rt reg') flagDefaults osArgs w
  = (w1, Ret (g, "verify" :: wargs)) ->
  showHelp g = false ->
  loadConfig rt (configPath g) w1 = (w2, Ret (Ok c)) ->
  reg' !! "verify" = Some h
  /\ exists w3 o,
       verifyConnectivity rt c wargs w2 = (w3, o)
       /\ main rt reg' osArgs w
          = (w3, match o with
                 | Ret _ => Ret tt
                 | Exit code => Exit code
                 end)
       /\ executions (trace w3) = executions (trace w).
Proof.
  intros reg' HP Hhelp HL.
  split; [apply lookup_insert_eq|].
  assert (w1 = w) as -> by exact (returnsUnchanged_Parse rt _ _ _ _ _ _ HP).
  destruct (verifyConnectivity rt c wargs w2) as [w3 o] eqn:HV.
  exists w3, o. split; [reflexivity|].
  destruct (verifyConnectivity_outcome rt _ _ _ _ _ HV) as [Htr Ho].
  destruct (loadConfig_world rt _ _ _ _ HL) as (_ & _ & Hex & _).
  split; [|now rewrite Htr].
  unfold main. unfold bind at 1. rewrite HP. cbv iota beta. rewrite Hhelp.
  unfold bind at 1. rewrite HL.
  destruct (decide ("verify" = "verify")); [|contradiction].
  unfold bind. rewrite HV.
  destruct Ho as [->|[code ->]]; reflexivity.
Qed.

(** C6.  With the configuration loaded and no argument after [verify], the
    run writes the verify text for the base URL to the standard output,
    nothing to the error stream, and ends with status 0.  The text holds the
    line with the base URL and the line [API Secret: [REDACTED]].  A second
    run whose loaded configuration differs only in the secret ends in the
    same world with the same exit. *)
Theorem verify_output_hides_secret (rt1 rt2 : Runtime)
    (reg : gmap string Workflow) (osArgs : list string) (w w1 w2 : World)
    (g : GlobalFlags) (c1 c2 : Config) :
  flag.Parse rt1 (CommandLine rt1 reg) flagDefaults osArgs w
  = (w1, Ret (g, ["verify"])) ->
  flag.Parse rt2 (CommandLine rt2 reg) flagDefaults osArgs w
  = (w1, Ret (g, ["verify"])) ->
  showHelp g = false ->
  loadConfig rt1 (configPath g) w1 = (w2, Ret (Ok c1)) ->
  loadConfig rt2 (configPath g) w1 = (w2, Ret (Ok c2)) ->
  sameButSecret c1 c2 ->
  let text := verifyText (BaseURL c1) in
  main rt1 reg osArgs w = (output text "" w2, Ret tt)
  /\ exitStatus (snd (main rt1 reg osArgs w)) = 0%Z
  /\ stdout (fst (main rt1 reg osArgs w)) = stdout w +:+ text
  /\ stderr (fst (main rt1 reg osArgs w)) = stderr w
  /\ contains (line ("Base URL: " +:+ BaseURL c1)) text
  /\ contains (line "API Secret: [REDACTED]") text
  /\ main rt2 reg osArgs w = main rt1 reg osArgs w.
Proof.
  intros HP1 HP2 Hhelp HL1 HL2 (Hurl & _ & _) text.
  assert (forall rt c,
             flag.Parse rt (CommandLine rt reg) flagDefaults osArgs w
             = (w1, Ret (g, ["verify"])) ->
             loadConfig rt (configPath g) w1 = (w2, Ret (Ok c)) ->
             main rt reg osArgs w
             = (output (verifyText (BaseURL c)) "" w2, Ret tt)) as Hmain.
  { intros rt c HP HL.
    unfold main. unfold bind at 1. rewrite HP. cbv iota beta. rewrite Hhelp.
    unfold bind at 1. rewrite HL.
    destruct (decide ("verify" = "verify")); [|contradiction].
    unfold bind. now rewrite (prints_verifyConnectivity rt c w2). }
  destruct (loadConfig_world rt1 _ _ _ _ HL1) as (Hout & Herr & _).
  assert (w1 = w) as Hw by exact (returnsUnchanged_Parse rt1 _ _ _ _ _ _ HP1).
  rewrite (Hmain rt2 c2 HP2 HL2), (Hmain rt1 c1 HP1 HL1), <- Hurl.
  subst w1. simpl. rewrite append_nil_r, Hout, Herr.
  repeat apply conj; try reflexivity.
  - unfold text, verifyText, line. rewrite <- (append_assoc "Base URL: ").
    apply contains_intro.
  - unfold text, verifyText.
    exists (line "Verifying CyberArk API connectivity..."
            +:+ "Base URL: " +:+ BaseURL c1 +:+ fmt.nl).
    eexists. rewrite !append_assoc. reflexivity.
Qed.

Lemma main_unknown_workflow_witness :
  exists w',
    main (laptop sampleConfig) sampleRegistry ["bogus"] emptyWorld
    = (w', Exit 1)
    /\ executions (trace w') = []
    /\ stderr w' = "Error: unknown workflow 'bogus'" +:+ fmt.nl
    /\ stdout w' = usageText (laptop sampleConfig) sampleRegistry.
Proof.
  destruct (main_unknown_workflow (laptop sampleConfig) sampleRegistry
              ["bogus"] emptyWorld emptyWorld flagDefaults "bogus" [])
    as (w' & Hmain & Hex & Hloaded);
    [reflexivity | reflexivity | discriminate | reflexivity |].
  destruct (Hloaded loadedWorld sampleConfig) as (Herr & Hout & _);
    [reflexivity|].
  exists w'. repeat split; assumption.
Defined.

Lemma verify_shadows_registry_witness :
  let h := helloWorkflow "registered under the name verify" in
  exists w3,
    main (laptop sampleConfig) (RegisterWorkflow "verify" h sampleRegistry)
      ["verify"] emptyWorld
    = (w3, Ret tt)
    /\ stdout w3 = verifyText "https://h/api"
    /\ executions (trace w3) = [].
Proof.
  intros h.
  destruct (verify_shadows_registry (laptop sampleConfig) sampleRegistry h
              ["verify"] emptyWorld emptyWorld loadedWorld flagDefaults []
              sampleConfig)
    as (_ & w3 & o & Hverify & Hmain & Hex);
    [reflexivity | reflexivity | reflexivity |].
  rewrite prints_verifyConnectivity in Hverify.
  injection Hverify as <- <-.
  eexists. split; [exact Hmain|]. split; [reflexivity | exact Hex].
Defined.

Lemma verify_output_hides_secret_witness :
  sameButSecret sampleConfig otherSecret
  /\ main (laptop sampleConfig) sampleRegistry ["verify"] emptyWorld
     = (output (verifyText "https://h/api") "" loadedWorld, Ret tt)
  /\ main (laptop otherSecret) sampleRegistry ["verify"] emptyWorld
     = main (laptop sampleConfig) sampleRegistry ["verify"] emptyWorld.
Proof.
  assert (sameButSecret sampleConfig otherSecret) as Hsame
    by (repeat split).
  split; [exact Hsame|].
  destruct (verify_output_hides_secret (laptop sampleConfig)
              (laptop otherSecret) sampleRegistry ["verify"]
              emptyWorld emptyWorld loadedWorld flagDefaults
              sampleConfig otherSecret)
    as (Hmain & _ & _ & _ & _ & _ & Hsecond);
    [reflexivity | reflexivity | reflexivity | reflexivity | reflexivity
    | exact Hsame |].
  split; [exact Hmain | exact Hsecond].
Defined.

(** ** The API client *)

Section ClientFacts.
Context {Payload : Type} (tr : Transport Payload).
Context (c : APIClient) (endpoint : string).

Lemma http_NewRequest_Ok (method : string) (body : option string) :
  http_NewRequest_error tr method (BaseURL (config c) +:+ "/" +:+ endpoint)
  = None ->
  http_NewRequest tr method (BaseURL (config c) +:+ "/" +:+ endpoint) body
  = Ok {| Method := method;
          URL := BaseURL (config c) +:+ "/" +:+ endpoint;
          ReqBody := body; Header := ∅ |}.
Proof. intros H. unfold http_NewRequest. now rewrite H. Qed.

(** What [Get], [Post] and [Put] do once the request is built. *)
Lemma read_and_check (method : string) (body : option string) (w : World) :
  http_NewRequest_error tr method (BaseURL (config c) +:+ "/" +:+ endpoint)
  = None ->
  let req := expectedRequest method c endpoint body in
  let exchange :=
    (try req <- ret (http_NewRequest tr method
                       (BaseURL (config c) +:+ "/" +:+ endpoint) body)
     else err => "failed to create request: " +:+ err ;;
     let req := Header_Set "Authorization" (APISecret (config c)) req in
     let req := Header_Set "Content-Type" "application/json" req in
     try resp <- Do tr (httpClient c) req
     else err => "request failed: " +:+ err ;;
     let (body, err) := ioutil_ReadAll (Body resp) in
     match err with
     | Some err => ret (Err ("failed to read response: " +:+ err))
     | None =>
         if ((StatusCode resp <? 200) || (300 <=? StatusCode resp))%Z then
           ret (Err ("API error (status " +:+ fmt.verb_d (StatusCode resp)
                     +:+ "): " +:+ body))
         else ret (Ok body)
     end) in
  exchange w
  = (record [EvDo req] w,
     Ret match Client_Do tr (httpClient c) req with
         | Err err => Err ("request failed: " +:+ err)
         | Ok resp =>
             match readError (Body resp) with
             | Some err => Err ("failed to read response: " +:+ err)
             | None =>
                 if decide (200 <= StatusCode resp < 300)%Z
                 then Ok (contents (Body resp))
                 else Err (apiError (StatusCode resp) (contents (Body resp)))
             end
         end).
Proof.
  intros Hurl req exchange. unfold exchange, bind, ret, Do, emit.
  rewrite http_NewRequest_Ok by exact Hurl.
  change (Header_Set "Content-Type" "application/json"
            (Header_Set "Authorization" (APISecret (config c)) _))
    with req.
  simpl. destruct (Client_Do tr (httpClient c) req) as [resp|err];
    [|reflexivity].
  unfold ioutil_ReadAll. destruct (readError (Body resp)); [reflexivity|].
  destruct (decide (200 <= StatusCode resp < 300)%Z) as [Hs|Hs];
    destruct (Z.ltb_spec (StatusCode resp) 200);
    destruct (Z.leb_spec 300 (StatusCode resp)); simpl;
    try reflexivity; lia.
Qed.

Lemma Get_run (w : World) :
  http_NewRequest_error tr "GET" (BaseURL (config c) +:+ "/" +:+ endpoint)
  = None ->
  let req := expectedRequest "GET" c endpoint None in
  Get tr c endpoint w
  = (record [EvDo req] w,
     Ret match Client_Do tr (httpClient c) req with
         | Err err => Err ("request failed: " +:+ err)
         | Ok resp =>
             match readError (Body resp) with
             | Some err => Err ("failed to read response: " +:+ err)
             | None =>
                 if decide (200 <= StatusCode resp < 300)%Z
                 then Ok (contents (Body resp))
                 else Err (apiError (StatusCode resp) (contents (Body resp)))
             end
         end).
Proof. intros Hurl. exact (read_and_check "GET" None w Hurl). Qed.

Lemma Delete_run (w : World) :
  http_NewRequest_error tr "DELETE" (BaseURL (config c) +:+ "/" +:+ endpoint)
  = None ->
  let req := expectedRequest "DELETE" c endpoint None in
  Delete tr c endpoint w
  = (record [EvDo req] w,
     Ret match Client_Do tr (httpClient c) req with
         | Err err => Some ("request failed: " +:+ err)
         | Ok resp =>
             if decide (200 <= StatusCode resp < 300)%Z then None
             else Some (apiError (StatusCode resp) (contents (Body resp)))
         end).
Proof.
  intros Hurl req. unfold Delete, bind, ret, Do, emit.
  rewrite http_NewRequest_Ok by exact Hurl.
  change (Header_Set "Content-Type" "application/json"
            (Header_Set "Authorization" (APISecret (config c)) _))
    with req.
  simpl. destruct (Client_Do tr (httpClient c) req) as [resp|err];
    [|reflexivity].
  destruct (decide (200 <= StatusCode resp < 300)%Z) as [Hs|Hs];
    destruct (Z.ltb_spec (StatusCode resp) 200);
    destruct (Z.leb_spec 300 (StatusCode resp)); simpl;
    try reflexivity; lia.
Qed.

Lemma with_payload_run (method : string) (payload : Payload)
    (jsonData : string) (w : World) (op : Proc (result string)) :
  json_Marshal tr payload = Ok jsonData ->
  http_NewRequest_error tr method (BaseURL (config c) +:+ "/" +:+ endpoint)
  = None ->
  (op = Post tr c endpoint payload /\ method = "POST"
   \/ op = Put tr c endpoint payload /\ method = "PUT") ->
  let req := expectedRequest method c endpoint (Some jsonData) in
  op w
  = (record [EvDo req] w,
     Ret match Client_Do tr (httpClient c) req with
         | Err err => Err ("request failed: " +:+ err)
         | Ok resp =>
             match readError (Body resp) with
             | Some err => Err ("failed to read response: " +:+ err)
             | None =>
                 if decide (200 <= StatusCode resp < 300)%Z
                 then Ok (contents (Body resp))
                 else Err (apiError (StatusCode resp) (contents (Body resp)))
             end
         end).
Proof.
  intros Hjson Hurl [[-> ->]|[-> ->]] req.
  - unfold Post. unfold bind at 1, ret at 1. rewrite Hjson.
    exact (read_and_check "POST" (Some jsonData) w Hurl).
  - unfold Put. unfold bind at 1, ret at 1. rewrite Hjson.
    exact (read_and_check "PUT" (Some jsonData) w Hurl).
Qed.

End ClientFacts.

Lemma apiError_contains (status : Z) (body : string) :
  contains (fmt.verb_d status) (apiError status body)
  /\ contains body (apiError status body).
Proof.
  unfold apiError. split.
  - apply contains_intro.
  - exists ("API error (status " +:+ fmt.verb_d status +:+ "): "), "".
    now rewrite append_nil_r, !append_assoc.
Qed.

(** C4.  For every client, endpoint and payload, each of the four
    operations hands the transport at most one request, and exactly one
    when the payload encodes and the HTTP library accepts the URL; that
    request has as URL the base URL, a slash and the endpoint as given, as
    [Authorization] header the secret alone and as [Content-Type] header
    [application/json]. *)
Theorem client_request_shape {Payload : Type} (tr : Transport Payload)
    (c : APIClient) (endpoint : string) (payload : Payload) (w : World) :
  let url := BaseURL (config c) +:+ "/" +:+ endpoint in
  let accepted (method : string) (req : Request) : list Request :=
    match http_NewRequest_error tr method url with
    | None => [req]
    | Some _ => []
    end in
  let encoded (method : string) : list Request :=
    match json_Marshal tr payload with
    | Ok jsonData =>
        accepted method (expectedRequest method c endpoint (Some jsonData))
    | Err _ => []
    end in
  sends (Get tr c endpoint) w
    (accepted "GET" (expectedRequest "GET" c endpoint None))
  /\ sends (Post tr c endpoint payload) w (encoded "POST")
  /\ sends (Put tr c endpoint payload) w (encoded "PUT")
  /\ sends (Delete tr c endpoint) w
       (accepted "DELETE" (expectedRequest "DELETE" c endpoint None))
  /\ forall method body,
       let req := expectedRequest method c endpoint body in
       Method req = method
       /\ URL req = url
       /\ Header req !! "Authorization" = Some [APISecret (config c)]
       /\ Header req !! "Content-Type" = Some ["application/json"].
Proof.
  intros url accepted encoded. unfold sends, encoded, accepted.
  repeat apply conj.
  - destruct (http_NewRequest_error tr "GET" url) as [err|] eqn:Hurl.
    + unfold Get, bind, ret, http_NewRequest. fold url. rewrite Hurl.
      simpl. now rewrite app_nil_r.
    + now rewrite Get_run.
  - destruct (json_Marshal tr payload) as [jsonData|err] eqn:Hjson.
    + destruct (http_NewRequest_error tr "POST" url) as [err|] eqn:Hurl.
      * unfold Post, bind, ret, http_NewRequest. fold url.
        rewrite Hjson, Hurl. simpl. now rewrite app_nil_r.
      * now rewrite (with_payload_run tr c endpoint "POST" payload jsonData
                       w _ Hjson Hurl (or_introl (conj eq_refl eq_refl))).
    + unfold Post, bind, ret. rewrite Hjson. simpl. now rewrite app_nil_r.
  - destruct (json_Marshal tr payload) as [jsonData|err] eqn:Hjson.
    + destruct (http_NewRequest_error tr "PUT" url) as [err|] eqn:Hurl.
      * unfold Put, bind, ret, http_NewRequest. fold url.
        rewrite Hjson, Hurl. simpl. now rewrite app_nil_r.
      * now rewrite (with_payload_run tr c endpoint "PUT" payload jsonData
                       w _ Hjson Hurl (or_intror (conj eq_refl eq_refl))).
    + unfold Put, bind, ret. rewrite Hjson. simpl. now rewrite app_nil_r.
  - destruct (http_NewRequest_error tr "DELETE" url) as [err|] eqn:Hurl.
    + unfold Delete, bind, ret, http_NewRequest. fold url. rewrite Hurl.
      simpl. now rewrite app_nil_r.
    + now rewrite Delete_run.
  - intros method body. unfold expectedRequest. simpl.
    split; [reflexivity|]. split; [reflexivity|]. split.
    + rewrite lookup_insert_ne by discriminate. apply lookup_insert_eq.
    + apply lookup_insert_eq.
Qed.

(** The scenario of a list call: the request [Get] sends for the endpoint
    [accounts]. *)
Lemma client_request_shape_witness :
  let c := NewAPIClient sampleConfig in
  let req := {| Method := "GET"; URL := "https://h/api/accounts";
                ReqBody := None;
                Header := <["Content-Type" := ["application/json"]]>
                            (<["Authorization" := ["s"]]> ∅) |} in
  sends (Get (server 200 "[]") c "accounts") emptyWorld [req]
  /\ Header req !! "Authorization" = Some ["s"].
Proof.
  intros c req.
  destruct (client_request_shape (server 200 "[]") c "accounts" "{}"
              emptyWorld)
    as (Hget & _ & _ & _ & Hshape).
  split; [exact Hget|].
  exact (proj1 (proj2 (proj2 (Hshape "GET" None)))).
Defined.

(** C2.  When the exchange takes place and the body is read, each of the
    four operations succeeds exactly when the status is in [200, 300):
    then [Get], [Post] and [Put] return the body and [Delete] returns no
    error; otherwise each returns the error made of the status in decimal
    and the body as received, both of which occur in its text. *)
Theorem client_status_check {Payload : Type} (tr : Transport Payload)
    (c : APIClient) (endpoint : string) (payload : Payload)
    (jsonData : string) (resp : Response) (w : World) :
  let status := StatusCode resp in
  let body := contents (Body resp) in
  json_Marshal tr payload = Ok jsonData ->
  (forall method,
     http_NewRequest_error tr method
       (BaseURL (config c) +:+ "/" +:+ endpoint) = None) ->
  (forall method reqBody,
     Client_Do tr (httpClient c) (expectedRequest method c endpoint reqBody)
     = Ok resp) ->
  readError (Body resp) = None ->
  ((200 <= status < 300)%Z ->
   snd (Get tr c endpoint w) = Ret (Ok body)
   /\ snd (Post tr c endpoint payload w) = Ret (Ok body)
   /\ snd (Put tr c endpoint payload w) = Ret (Ok body)
   /\ snd (Delete tr c endpoint w) = Ret None)
  /\ (~ (200 <= status < 300)%Z ->
      snd (Get tr c endpoint w) = Ret (Err (apiError status body))
      /\ snd (Post tr c endpoint payload w) = Ret (Err (apiError status body))
      /\ snd (Put tr c endpoint payload w) = Ret (Err (apiError status body))
      /\ snd (Delete tr c endpoint w) = Ret (Some (apiError status body)))
  /\ contains (fmt.verb_d status) (apiError status body)
  /\ contains body (apiError status body).
Proof.
  intros status body Hjson Hurl Hdo Hread.
  pose proof (Get_run tr c endpoint w (Hurl _)) as HG.
  pose proof (with_payload_run tr c endpoint "POST" payload jsonData w _
                Hjson (Hurl _) (or_introl (conj eq_refl eq_refl))) as HPo.
  pose proof (with_payload_run tr c endpoint "PUT" payload jsonData w _
                Hjson (Hurl _) (or_intror (conj eq_refl eq_refl))) as HPu.
  pose proof (Delete_run tr c endpoint w (Hurl _)) as HD.
  cbv zeta in HG, HPo, HPu, HD.
  rewrite HG, HPo, HPu, HD, !Hdo, Hread. fold status body.
  split; [|split; [|apply apiError_contains]]; intros Hs;
    destruct (decide (200 <= status < 300)%Z); try contradiction;
    repeat split; reflexivity.
Qed.

Lemma client_status_check_witness :
  let c := NewAPIClient sampleConfig in
  snd (Delete (server 204 "") c "accounts/7" emptyWorld) = Ret None
  /\ snd (Get (server 204 "") c "accounts/7" emptyWorld) = Ret (Ok "")
  /\ snd (Get (server 404 "not found") c "accounts/7" emptyWorld)
     = Ret (Err "API error (status 404): not found")
  /\ snd (Delete (server 404 "not found") c "accounts/7" emptyWorld)
     = Ret (Some "API error (status 404): not found").
Proof.
  intros c.
  pose proof (fun status body =>
    client_status_check (server status body) c "accounts/7" "{}" "{}"
      {| StatusCode := status;
         Body := {| contents := body; readError := None |} |} emptyWorld
      eq_refl (fun _ => eq_refl) (fun _ _ => eq_refl) eq_refl) as H.
  destruct (H 204%Z "") as (Hok & _). destruct Hok as (Hg & _ & _ & Hd);
    [simpl; lia|].
  destruct (H 404%Z "not found") as (_ & Hbad & _).
  destruct Hbad as (Hg' & _ & _ & Hd'); [simpl; lia|].
  repeat split; assumption.
Defined.

(** * Further properties of the code *)

(** ** How a flag parse ends *)

(** A parse returns without having changed the world, or fails with a
    message (error stream, usage, exit 2), or meets an undefined [-help] or
    [-h] (usage, exit 0). *)
Lemma Parse_inv (rt : Runtime) {V} (f : flag.FlagSet V) :
  forall args v w w' o,
    flag.Parse rt f v args w = (w', o) ->
    (exists r, o = Ret r /\ w' = w)
    \/ (exists msg, flag.failf f msg w = (w', o))
    \/ ((flag.Usage f ;; os_Exit 0) w = (w', o)
        /\ exists name, flag.formal f !! name = None
                        /\ (name = "help" \/ name = "h")).
Proof.
  intros args.
  induction args as [args IH] using (induction_ltof1 _ (@length string)).
  unfold ltof in IH. intros v w w' o.
  destruct args as [|s rest]; [intros [= <- <-]; left; eauto|].
  simpl flag.Parse.
  repeat (case_match; try (intros [= <- <-]; left; eauto; fail);
          try (intros Hfail; right; left; eauto; fail)).
  all: try (apply IH; simpl; lia).
  all: intros Hhelp; right; right; split; [exact Hhelp|]; eauto.
Qed.

Lemma prints_failf {V A} (f : flag.FlagSet V) (msg out err : string) :
  prints (flag.Usage f) out err (Ret tt) ->
  prints (@flag.failf V f A msg) out ((msg +:+ fmt.nl) +:+ err) (Exit 2).
Proof.
  intros Hu. unfold flag.failf.
  assert (prints (Fprint_Stderr (msg +:+ fmt.nl) ;; flag.Usage f ;;
                  @os_Exit A 2)
            ("" +:+ out +:+ "") ((msg +:+ fmt.nl) +:+ err +:+ "") (Exit 2))
    as Hp.
  { apply prints_bind with (a := tt); [apply prints_Stderr|].
    apply prints_bind with (a := tt); [exact Hu|]. apply prints_Exit. }
  simpl in Hp. now rewrite !append_nil_r in Hp.
Qed.

Lemma CommandLine_defines_help (rt : Runtime) (reg : gmap string Workflow)
    (name : string) :
  name = "help" \/ name = "h" ->
  flag.formal (CommandLine rt reg) !! name <> None.
Proof.
  unfold CommandLine. simpl. intros [-> | ->].
  - rewrite lookup_insert_ne by discriminate. now rewrite lookup_insert_eq.
  - now rewrite lookup_insert_eq.
Qed.

(** ** The dispatcher: the paths the claims leave out *)

(** X1.  When a help flag is among the global flags, [main] writes the
    usage text to the standard output and exits with status 0, whatever
    follows on the command line: nothing goes to the error stream, the
    configuration is not loaded and no workflow runs. *)
Theorem main_help_flag (rt : Runtime) (reg : gmap string Workflow)
    (osArgs : list string) (w w1 : World) (g : GlobalFlags)
    (args : list string) :
  flag.Parse rt (CommandLine rt reg) flagDefaults osArgs w
  = (w1, Ret (g, args)) ->
  showHelp g = true ->
  exists w',
    main rt reg osArgs w = (w', Exit 0)
    /\ stdout w' = stdout w +:+ usageText rt reg
    /\ stderr w' = stderr w
    /\ trace w' = trace w.
Proof.
  intros HP Hhelp.
  assert (w1 = w) as -> by exact (returnsUnchanged_Parse rt _ _ _ _ _ _ HP).
  unfold main. unfold bind at 1. rewrite HP. cbv iota beta. rewrite Hhelp.
  assert (prints (printUsage rt reg ;; @os_Exit unit 0)
            (usageText rt reg +:+ "") "" (Exit 0)) as Hp.
  { apply (prints_bind _ _ tt _ "" _ ""); [apply prints_printUsage|].
    apply prints_Exit. }
  eexists. split; [exact (Hp w)|]. simpl.
  rewrite !append_nil_r. repeat split; reflexivity.
Qed.

Lemma main_help_flag_witness :
  exists w',
    main (laptop sampleConfig) sampleRegistry ["--help"; "bogus"] emptyWorld
    = (w', Exit 0)
    /\ stdout w' = usageText (laptop sampleConfig) sampleRegistry
    /\ stderr w' = ""
    /\ trace w' = [].
Proof.
  destruct (main_help_flag (laptop sampleConfig) sampleRegistry
              ["--help"; "bogus"] emptyWorld emptyWorld
              {| configPath := "~/.cyberark_api"; showHelp := true |}
              ["bogus"])
    as (w' & Hmain & Hout & Herr & Htr); [reflexivity | reflexivity |].
  exists w'. repeat split; assumption.
Defined.

(** X2.  When the configuration does not load, [main] writes
    [Error loading config: ] and the error to the error stream and exits
    with status 1, whatever the workflow name is ([verify] and registered
    names included): nothing goes to the standard output and no workflow
    runs. *)
Theorem main_config_error (rt : Runtime) (reg : gmap string Workflow)
    (osArgs : list string) (w w1 w2 : World) (g : GlobalFlags)
    (name : string) (wargs : list string) (err : error) :
  flag.Parse rt (CommandLine rt reg) flagDefaults osArgs w
  = (w1, Ret (g, name :: wargs)) ->
  showHelp g = false ->
  loadConfig rt (configPath g) w1 = (w2, Ret (Err err)) ->
  exists w',
    main rt reg osArgs w = (w', Exit 1)
    /\ stderr w' = stderr w +:+ "Error loading config: " +:+ err +:+ fmt.nl
    /\ stdout w' = stdout w
    /\ trace w' = trace w2
    /\ executions (trace w') = executions (trace w).
Proof.
  intros HP Hhelp HL.
  assert (w1 = w) as -> by exact (returnsUnchanged_Parse rt _ _ _ _ _ _ HP).
  destruct (loadConfig_world rt _ _ _ _ HL) as (Hout & Herr & Hex & _).
  unfold main. unfold bind at 1. rewrite HP. cbv iota beta. rewrite Hhelp.
  unfold bind at 1. rewrite HL.
  assert (prints
            (Fprint_Stderr ("Error loading config: " +:+ err +:+ fmt.nl) ;;
             @os_Exit unit 1)
            ("" +:+ "")
            (("Error loading config: " +:+ err +:+ fmt.nl) +:+ "")
            (Exit 1)) as Hp.
  { apply prints_bind with (a := tt); [apply prints_Stderr|].
    apply prints_Exit. }
  eexists. split; [exact (Hp w2)|]. simpl.
  rewrite !append_nil_r, Hout, Herr. repeat split; try reflexivity.
  exact Hex.
Qed.

Lemma main_config_error_witness :
  let rt := machine "/home/u" "/home/u/.cyberark_api" 420 "{}"
              (Ok sampleConfig) in
  exists w',
    main rt sampleRegistry ["verify"] emptyWorld = (w', Exit 1)
    /\ stderr w'
       = "Error loading config: config file must have 0600 permissions, has 644"
         +:+ fmt.nl
    /\ stdout w' = "".
Proof.
  intros rt.
  destruct (main_config_error rt sampleRegistry ["verify"] emptyWorld
              emptyWorld
              {| stdout := ""; stderr := "";
                 trace := [EvUserHomeDir; EvStat "/home/u/.cyberark_api"] |}
              flagDefaults "verify" []
              "config file must have 0600 permissions, has 644")
    as (w' & Hmain & Herr & Hout & _);
    [reflexivity | reflexivity | reflexivity |].
  exists w'. repeat split; assumption.
Defined.

(** The run of [main] at a registered name, in terms of the run of the
    handler. *)
Lemma main_dispatch_registered (rt : Runtime)
    (reg : gmap string Workflow) (osArgs : list string) (w w1 w2 w4 : World)
    (g : GlobalFlags) (name : string) (wargs : list string) (c : Config)
    (wf : Workflow) (o : Outcome (option error)) :
  flag.Parse rt (CommandLine rt reg) flagDefaults osArgs w
  = (w1, Ret (g, name :: wargs)) ->
  showHelp g = false ->
  name <> "verify" ->
  reg !! name = Some wf ->
  loadConfig rt (configPath g) w1 = (w2, Ret (Ok c)) ->
  Execute wf c wargs (record [EvExecute name c wargs] w2) = (w4, o) ->
  main rt reg osArgs w
  = match o with
    | Ret None => (w4, Ret tt)
    | Ret (Some err) =>
        (output "" ("Error executing workflow: " +:+ err +:+ fmt.nl) w4,
         Exit 1)
    | Exit code => (w4, Exit code)
    end.
Proof.
  intros HP Hhelp Hname Hreg HL HE.
  unfold main. unfold bind at 1. rewrite HP. cbv iota beta. rewrite Hhelp.
  unfold bind at 1. rewrite HL.
  destruct (decide (name = "verify")); [contradiction|]. rewrite Hreg.
  unfold bind at 1. unfold emit.
  change {| stdout := stdout w2; stderr := stderr w2;
            trace := trace w2 ++ [EvExecute name c wargs] |}
    with (record [EvExecute name c wargs] w2).
  unfold bind at 1. rewrite HE.
  destruct o as [[err|]|code]; try reflexivity.
  assert (prints
            (Fprint_Stderr ("Error executing workflow: " +:+ err +:+ fmt.nl)
             ;; @os_Exit unit 1)
            ("" +:+ "")
            (("Error executing workflow: " +:+ err +:+ fmt.nl) +:+ "")
            (Exit 1)) as Hp.
  { apply prints_bind with (a := tt); [apply prints_Stderr|].
    apply prints_Exit. }
  rewrite (Hp w4). simpl. now rewrite !append_nil_r.
Qed.


(** X3.  For a registered name other than [verify], once the
    configuration is loaded, [main] calls the handler's [Execute] with the
    loaded configuration and exactly the arguments after the name.  If the
    handler returns no error the run returns (status 0) in the world the
    handler left; if it returns an error, [Error executing workflow: ] and
    the error go to the error stream and the status is 1; if the handler
    exits, that is the exit of the run. *)
Theorem main_runs_registered_workflow (rt : Runtime)
    (reg : gmap string Workflow) (osArgs : list string) (w w1 w2 w4 : World)
    (g : GlobalFlags) (name : string) (wargs : list string) (c : Config)
    (wf : Workflow) (o : Outcome (option error)) :
  flag.Parse rt (CommandLine rt reg) flagDefaults osArgs w
  = (w1, Ret (g, name :: wargs)) ->
  showHelp g = false ->
  name <> "verify" ->
  reg !! name = Some wf ->
  loadConfig rt (configPath g) w1 = (w2, Ret (Ok c)) ->
  Execute wf c wargs (record [EvExecute name c wargs] w2) = (w4, o) ->
  (o = Ret None -> main rt reg osArgs w = (w4, Ret tt))
  /\ (forall err, o = Ret (Some err) ->
      exists w',
        main rt reg osArgs w = (w', Exit 1)
        /\ stderr w' = stderr w4 +:+ "Error executing workflow: " +:+ err
                       +:+ fmt.nl
        /\ stdout w' = stdout w4 /\ trace w' = trace w4)
  /\ (forall code, o = Exit code -> main rt reg osArgs w = (w4, Exit code)).
Proof.
  intros HP Hhelp Hname Hreg HL HE.
  pose proof (main_dispatch_registered rt reg osArgs w w1 w2 w4 g name wargs
                c wf o HP Hhelp Hname Hreg HL HE) as Hmain.
  repeat apply conj.
  - now intros ->.
  - intros err ->. eexists. split; [exact Hmain|]. simpl.
    rewrite append_nil_r. repeat split.
  - now intros code ->.
Qed.

Lemma main_runs_registered_workflow_witness :
  let reg := RegisterWorkflow "rotate" (failingWorkflow "vault sealed")
               sampleRegistry in
  main (laptop sampleConfig) reg ["list-accounts"; "--safe"; "Prod"]
    emptyWorld
  = ({| stdout := line "Listing CyberArk accounts...";
        stderr := "";
        trace := trace loadedWorld
                 ++ [EvExecute "list-accounts" sampleConfig
                       ["--safe"; "Prod"]] |},
     Ret tt)
  /\ exists w',
       main (laptop sampleConfig) reg ["rotate"] emptyWorld = (w', Exit 1)
       /\ stderr w' = line "Error executing workflow: vault sealed"
       /\ stdout w' = "".
Proof.
  intros reg. split.
  - refine (proj1 (main_runs_registered_workflow (laptop sampleConfig) reg
             ["list-accounts"; "--safe"; "Prod"] emptyWorld emptyWorld
             loadedWorld _ flagDefaults "list-accounts" ["--safe"; "Prod"]
             sampleConfig (helloWorkflow "Listing CyberArk accounts...")
             (Ret None) eq_refl eq_refl _ eq_refl eq_refl eq_refl) eq_refl).
    discriminate.
  - destruct (proj1 (proj2 (main_runs_registered_workflow
                (laptop sampleConfig) reg
                ["rotate"] emptyWorld emptyWorld loadedWorld _ flagDefaults
                "rotate" [] sampleConfig (failingWorkflow "vault sealed")
                (Ret (Some "vault sealed")) eq_refl eq_refl
                ltac:(discriminate) eq_refl eq_refl eq_refl))
                "vault sealed" eq_refl)
      as (w' & Hmain & Herr & Hout & _).
    exists w'. repeat split; assumption.
Defined.

Lemma Parse_positional (rt : Runtime) {V} (f : flag.FlagSet V) (v : V)
    (name : string) (wargs : list string) (w : World) :
  positional name ->
  flag.Parse rt f v (name :: wargs) w = (w, Ret (v, name :: wargs)).
Proof.
  intros Hpos. simpl.
  destruct name as [|c [|c1 s2]]; try reflexivity.
  simpl in Hpos. now destruct (decide (c <> "-"%char)).
Qed.

(** X4.  A workflow registered under a name that cannot be taken for a
    flag and is not [verify] is what the command line [name args...] runs:
    the configuration comes from the default path, the arguments after the
    name reach the handler as they are (global flags among them are not
    interpreted), and a handler that returns no error makes the run return
    with status 0. *)
Theorem registered_workflow_end_to_end (rt : Runtime)
    (reg : gmap string Workflow) (name : string) (wf : Workflow)
    (wargs : list string) (w w2 w4 : World) (c : Config) :
  positional name ->
  name <> "verify" ->
  loadConfig rt "~/.cyberark_api" w = (w2, Ret (Ok c)) ->
  Execute wf c wargs (record [EvExecute name c wargs] w2) = (w4, Ret None) ->
  main rt (RegisterWorkflow name wf reg) (name :: wargs) w = (w4, Ret tt)
  /\ exitStatus (snd (main rt (RegisterWorkflow name wf reg)
                        (name :: wargs) w)) = 0%Z.
Proof.
  intros Hpos Hname HL HE.
  assert (main rt (RegisterWorkflow name wf reg) (name :: wargs) w
          = (w4, Ret tt)) as Hmain.
  { exact (main_dispatch_registered rt _ _ w w w2 w4 flagDefaults
             name wargs c wf (Ret None)
             (Parse_positional rt _ _ _ _ _ Hpos) eq_refl Hname
             (lookup_insert_eq _ _ _) HL HE). }
  split; [exact Hmain | now rewrite Hmain].
Qed.

Lemma registered_workflow_end_to_end_witness :
  positional "rotate"
  /\ main (laptop sampleConfig)
       (RegisterWorkflow "rotate" (helloWorkflow "rotated") sampleRegistry)
       ["rotate"; "-c"; "/tmp/other.json"] emptyWorld
     = ({| stdout := line "rotated"; stderr := "";
           trace := trace loadedWorld
                    ++ [EvExecute "rotate" sampleConfig
                          ["-c"; "/tmp/other.json"]] |},
        Ret tt).
Proof.
  assert (positional "rotate") as Hpos by (simpl; discriminate).
  split; [exact Hpos|].
  refine (proj1 (registered_workflow_end_to_end (laptop sampleConfig)
                   sampleRegistry "rotate" (helloWorkflow "rotated")
                   ["-c"; "/tmp/other.json"] emptyWorld loadedWorld _
                   sampleConfig Hpos _ eq_refl eq_refl)).
  discriminate.
Defined.

(** X5.  When the parse of the global flags fails, the run ends there:
    the message of the flag parser is on the error stream, the usage text on
    the standard output, the exit status is 2 (not 1), and the
    configuration is not loaded. *)
Theorem main_flag_error (rt : Runtime) (reg : gmap string Workflow)
    (osArgs : list string) (w w1 : World) (code : Z) :
  flag.Parse rt (CommandLine rt reg) flagDefaults osArgs w
  = (w1, Exit code) ->
  main rt reg osArgs w = (w1, Exit code)
  /\ code = 2%Z
  /\ stdout w1 = stdout w +:+ usageText rt reg
  /\ (exists msg, stderr w1 = stderr w +:+ msg +:+ fmt.nl)
  /\ trace w1 = trace w.
Proof.
  intros HP. split.
  { unfold main. unfold bind at 1. now rewrite HP. }
  destruct (Parse_inv rt _ _ _ _ _ _ HP)
    as [(r & [=] & _) | [(msg & Hfail) | (_ & name & Hnone & Hname)]].
  - rewrite (prints_failf (CommandLine rt reg) msg (usageText rt reg) ""
               (prints_printUsage rt reg) w) in Hfail.
    injection Hfail as <- <-. simpl. rewrite append_nil_r.
    repeat split; eauto.
  - exfalso. exact (CommandLine_defines_help rt reg name Hname Hnone).
Qed.

Lemma main_flag_error_witness :
  main (laptop sampleConfig) sampleRegistry ["--confg"; "x"; "verify"]
    emptyWorld
  = ({| stdout := usageText (laptop sampleConfig) sampleRegistry;
        stderr := line "flag provided but not defined: -confg";
        trace := [] |}, Exit 2).
Proof.
  refine (proj1 (main_flag_error (laptop sampleConfig) sampleRegistry
                   ["--confg"; "x"; "verify"] emptyWorld
                   {| stdout := usageText (laptop sampleConfig) sampleRegistry;
                      stderr := line "flag provided but not defined: -confg";
                      trace := [] |} 2 _)).
  vm_compute. reflexivity.
Defined.

(** ** The verify workflow, for every argument list *)

Lemma prints_verifyDefaultUsage :
  prints verifyDefaultUsage "" verifyUsageText (Ret tt).
Proof.
  unfold verifyDefaultUsage, verifyUsageText.
  apply (prints_bind _ _ tt "" _ "" _); [apply prints_Stderr|].
  apply (prints_bind _ _ tt "" _ "" _); [apply prints_Stderr|].
  apply prints_Stderr.
Qed.

(** X6.  Whatever its arguments, [verifyConnectivity] makes no external
    call and never returns an error.  Either it returns, having written the
    help text or the verify text to the standard output and nothing to the
    error stream, or its flag parse fails and it exits with status 2,
    having written a message and the flag usage to the error stream and
    nothing to the standard output. *)
Theorem verifyConnectivity_outcomes (rt : Runtime) (c : Config)
    (args : list string) (w : World) :
  exists w' o,
    verifyConnectivity rt c args w = (w', o)
    /\ trace w' = trace w
    /\ ((o = Ret None
         /\ stderr w' = stderr w
         /\ (stdout w' = stdout w +:+ verifyHelpText
             \/ stdout w' = stdout w +:+ verifyText (BaseURL c)))
        \/ (o = Exit 2
            /\ stdout w' = stdout w
            /\ exists msg,
                 stderr w' = stderr w +:+ line msg +:+ verifyUsageText)).
Proof.
  destruct (verifyConnectivity rt c args w) as [w' o] eqn:HV.
  exists w', o. split; [reflexivity|].
  split; [exact (proj1 (verifyConnectivity_outcome rt _ _ _ _ _ HV))|].
  revert HV. unfold verifyConnectivity. unfold bind at 1.
  match goal with |- context [flag.Parse rt ?f false args w] =>
    set (fs := f);
    destruct (flag.Parse rt fs false args w) as [w1 [[help rest]|code]]
      eqn:HP;
    pose proof (Parse_inv rt fs _ _ _ _ _ HP) as Hinv
  end.
  - destruct Hinv as [(r & _ & ->) | [(msg & Hfail) | (Hhelp & _)]].
    + simpl fst. destruct help.
      * match goal with |- ?m w = _ -> _ =>
          assert (prints m verifyHelpText "" (Ret (None : option error)))
            as Hp
        end.
        { unfold verifyHelpText.
          do 5 (apply (prints_bind _ _ tt _ "" _ "");
                [apply prints_Println|]).
          apply prints_ret. }
        rewrite (Hp w). intros [= <- <-]. left. simpl.
        rewrite append_nil_r. auto.
      * match goal with |- ?m w = _ -> _ =>
          assert (prints m (verifyText (BaseURL c)) ""
                    (Ret (None : option error))) as Hp
        end.
        { exact (prints_verifyConnectivity rt c). }
        rewrite (Hp w). intros [= <- <-]. left. simpl.
        rewrite append_nil_r. auto.
    + rewrite (prints_failf fs msg _ _ prints_verifyDefaultUsage w) in Hfail.
      discriminate.
    + unfold bind in Hhelp. destruct (flag.Usage fs w) as [? [|]];
        discriminate.
  - intros [= <- <-].
    destruct Hinv
      as [(r & [=] & _) | [(msg & Hfail) | (_ & name & Hn & Hname)]].
    + rewrite (prints_failf fs msg _ _ prints_verifyDefaultUsage w) in Hfail.
      injection Hfail as <- <-. right. simpl. rewrite append_nil_r.
      repeat split. exists msg. unfold line. now rewrite append_assoc.
    + exfalso. unfold fs in Hn. simpl in Hn. destruct Hname as [-> | ->].
      * rewrite lookup_insert_ne, lookup_insert_eq in Hn by discriminate.
        discriminate.
      * rewrite lookup_insert_eq in Hn. discriminate.
Qed.

(** ** The secret and the two streams *)

Lemma Parse_Quote (rt1 rt2 : Runtime) {V} (f : flag.FlagSet V) :
  (forall s, strconv_Quote rt1 s = strconv_Quote rt2 s) ->
  forall args v, flag.Parse rt1 f v args = flag.Parse rt2 f v args.
Proof.
  intros Hq args.
  induction args as [args IH] using (induction_ltof1 _ (@length string)).
  unfold ltof in IH. intros v.
  destruct args as [|s rest]; [reflexivity|].
  simpl flag.Parse.
  repeat (case_match; try reflexivity).
  all: try (apply IH; simpl; lia).
  all: now rewrite Hq.
Qed.

Lemma loadConfigSteps_blind (rt : Runtime) (unmarshal : string -> result Config)
    (path : string) :
  secretBlind (json_Unmarshal rt) unmarshal ->
  let rt' := withContent rt (ioutil_ReadFile rt) unmarshal in
  fst (loadConfigSteps rt' path) = fst (loadConfigSteps rt path)
  /\ match snd (loadConfigSteps rt path), snd (loadConfigSteps rt' path) with
     | Ok c1, Ok c2 => sameButSecret c1 c2
     | Err e1, Err e2 => e1 = e2
     | _, _ => False
     end.
Proof.
  intros Hblind rt'. unfold loadConfigSteps.
  change (resolvedPath rt' path) with (resolvedPath rt path).
  destruct (resolvedPath rt path) as [p|err]; [|now split].
  change (os_Stat rt' p) with (os_Stat rt p).
  destruct (os_Stat rt p) as [info|err]; [|now split].
  destruct (decide _); [|now split].
  change (ioutil_ReadFile rt' p) with (ioutil_ReadFile rt p).
  split; [reflexivity|]. simpl.
  destruct (ioutil_ReadFile rt p) as [data|err]; [|reflexivity].
  change (json_Unmarshal rt' data) with (unmarshal data).
  specialize (Hblind data).
  destruct (json_Unmarshal rt data) as [c1|e1], (unmarshal data) as [c2|e2];
    try contradiction; [|now subst].
  destruct Hblind as [Hsame [Hempty1 Hempty2]].
  destruct (decide (APISecret c1 = "")) as [He1|He1],
           (decide (APISecret c2 = "")) as [He2|He2].
  - reflexivity.
  - exfalso. exact (He2 (Hempty1 He1)).
  - exfalso. exact (He1 (Hempty2 He2)).
  - rewrite <- (proj1 Hsame).
    destruct (decide (BaseURL c1 = "")); [reflexivity | exact Hsame].
Qed.

(** X7.  Unless a registered workflow is dispatched, what [main] writes
    and how it ends do not depend on the secret: with a decoder that
    agrees with the one in place up to the secret, every run that does not
    reach a registered handler ends in the same world with the same exit.
    Help, usage errors, configuration errors, [verify] with any arguments
    and unknown names never reveal the secret. *)
Theorem main_hides_secret (rt : Runtime) (unmarshal : string -> result Config)
    (reg : gmap string Workflow) (osArgs : list string) (w : World) :
  secretBlind (json_Unmarshal rt) unmarshal ->
  (forall w1 g name wargs,
     flag.Parse rt (CommandLine rt reg) flagDefaults osArgs w
     = (w1, Ret (g, name :: wargs)) ->
     name <> "verify" -> reg !! name = None) ->
  main (withContent rt (ioutil_ReadFile rt) unmarshal) reg osArgs w
  = main rt reg osArgs w.
Proof.
  intros Hblind Hreg.
  set (rt' := withContent rt (ioutil_ReadFile rt) unmarshal).
  assert (forall {V} (f : flag.FlagSet V) args v,
             flag.Parse rt' f v args = flag.Parse rt f v args) as HParse.
  { intros V f args v. now apply Parse_Quote. }
  assert (forall c1 c2 wargs w0,
             BaseURL c1 = BaseURL c2 ->
             verifyConnectivity rt' c2 wargs w0
             = verifyConnectivity rt c1 wargs w0) as HV.
  { intros c1 c2 wargs w0 Hurl.
    rewrite (verifyConnectivity_BaseURL rt c1 c2 wargs w0 Hurl).
    unfold verifyConnectivity. now rewrite HParse. }
  unfold main, bind.
  change (CommandLine rt' reg) with (CommandLine rt reg).
  change (printUsage rt' reg) with (printUsage rt reg).
  rewrite HParse.
  destruct (flag.Parse rt (CommandLine rt reg) flagDefaults osArgs w)
    as [w1 [[g args]|code]] eqn:HP; [|reflexivity].
  destruct (showHelp g); [reflexivity|].
  destruct args as [|name wargs]; [reflexivity|].
  rewrite !loadConfig_steps.
  destruct (loadConfigSteps_blind rt unmarshal (configPath g) Hblind)
    as [Hev Hres].
  fold rt' in Hev, Hres. rewrite Hev.
  destruct (snd (loadConfigSteps rt (configPath g))) as [c1|e1],
           (snd (loadConfigSteps rt' (configPath g))) as [c2|e2];
    try contradiction; [|now subst].
  destruct (decide (name = "verify")) as [_|Hname].
  - now rewrite (HV c1 c2 wargs _ (proj1 Hres)).
  - now rewrite (Hreg w1 g name wargs eq_refl Hname).
Qed.

Lemma main_hides_secret_witness :
  secretBlind (json_Unmarshal (laptop sampleConfig))
    (json_Unmarshal (laptop otherSecret))
  /\ main (laptop otherSecret) sampleRegistry ["verify"; "--help"] emptyWorld
     = main (laptop sampleConfig) sampleRegistry ["verify"; "--help"]
         emptyWorld.
Proof.
  assert (secretBlind (json_Unmarshal (laptop sampleConfig))
            (json_Unmarshal (laptop otherSecret))) as Hblind.
  { intros data. simpl. destruct (decide (data = "{}")); [|reflexivity].
    split; [repeat split|]. split; discriminate. }
  split; [exact Hblind|].
  refine (main_hides_secret (laptop sampleConfig)
            (json_Unmarshal (laptop otherSecret)) sampleRegistry
            ["verify"; "--help"] emptyWorld Hblind _).
  intros w1 g name wargs [= _ _ <- _] Hname. contradiction.
Defined.

(** ** The configuration loader: the other ways to fail *)

(** X8.  When the path begins with a tilde and the home directory cannot
    be determined, [loadConfig] returns that error behind
    [failed to get home directory: ] and touches no file. *)
Theorem loadConfig_home_failure (rt : Runtime) (s : string) (err : error)
    (w : World) :
  os_UserHomeDir rt = Err err ->
  loadConfig rt ("~" +:+ s) w
  = (record [EvUserHomeDir] w,
     Ret (Err ("failed to get home directory: " +:+ err)))
  /\ filesTouched rt ("~" +:+ s) = [].
Proof.
  intros Hhome.
  assert (loadConfigSteps rt ("~" +:+ s)
          = ([EvUserHomeDir], Err ("failed to get home directory: " +:+ err)))
    as Hsteps.
  { unfold loadConfigSteps, resolvedPath.
    change ("~" +:+ s) with (String "~" s). simpl.
    destruct (decide ("~"%char = "~"%char)); [|contradiction].
    now rewrite Hhome. }
  unfold filesTouched. rewrite !loadConfig_steps, Hsteps. now split.
Qed.

Lemma loadConfig_home_failure_witness :
  let rt := withContent
              {| os_UserHomeDir := Err "$HOME is not defined";
                 os_Stat := os_Stat (laptop sampleConfig);
                 ioutil_ReadFile := ioutil_ReadFile (laptop sampleConfig);
                 json_Unmarshal := json_Unmarshal (laptop sampleConfig);
                 strconv_Quote := fun s => s;
                 range_keys := range_keys (laptop sampleConfig) |}
              (ioutil_ReadFile (laptop sampleConfig))
              (json_Unmarshal (laptop sampleConfig)) in
  loadConfig rt "~/.cyberark_api" emptyWorld
  = ({| stdout := ""; stderr := ""; trace := [EvUserHomeDir] |},
     Ret (Err "failed to get home directory: $HOME is not defined")).
Proof.
  intros rt.
  exact (proj1 (loadConfig_home_failure rt "/.cyberark_api"
                  "$HOME is not defined" emptyWorld eq_refl)).
Defined.

(** X9.  When the file the path resolves to cannot be examined (it does
    not exist, say), [loadConfig] returns the error of [Stat] behind
    [failed to stat config file: ]; the file is not read. *)
Theorem loadConfig_missing_file (rt : Runtime) (path p : string)
    (err : error) (w : World) :
  resolvedPath rt path = Ok p ->
  os_Stat rt p = Err err ->
  loadConfig rt path w
  = (record (resolveEvents path ++ [EvStat p]) w,
     Ret (Err ("failed to stat config file: " +:+ err)))
  /\ filesTouched rt path = [p].
Proof.
  intros Hp Hstat.
  assert (loadConfigSteps rt path
          = (resolveEvents path ++ [EvStat p],
             Err ("failed to stat config file: " +:+ err))) as Hsteps.
  { unfold loadConfigSteps. now rewrite Hp, Hstat. }
  split; [now rewrite loadConfig_steps, Hsteps|].
  destruct (filesTouched_resolved rt path p Hp) as [H|H]; [exact H|].
  exfalso. revert H. unfold filesTouched.
  rewrite loadConfig_steps, Hsteps. simpl. unfold fileAccesses.
  rewrite omap_app. simpl. intros H.
  apply (f_equal (@length string)) in H. rewrite length_app in H.
  simpl in H.
  assert (length (omap (fun ev => match ev with
                                  | EvStat name | EvReadFile name => Some name
                                  | _ => None
                                  end) (resolveEvents path)) = 0) as H0.
  { destruct path as [|c rest]; [reflexivity|]. unfold resolveEvents.
    now destruct (decide (c = "~"%char)). }
  lia.
Qed.

Lemma loadConfig_missing_file_witness :
  loadConfig (laptop sampleConfig) "/etc/cyberark.json" emptyWorld
  = ({| stdout := ""; stderr := ""; trace := [EvStat "/etc/cyberark.json"] |},
     Ret (Err "failed to stat config file: stat /etc/cyberark.json: no such file or directory")).
Proof.
  exact (proj1 (loadConfig_missing_file (laptop sampleConfig)
                  "/etc/cyberark.json" "/etc/cyberark.json"
                  "stat /etc/cyberark.json: no such file or directory"
                  emptyWorld eq_refl eq_refl)).
Defined.

(** X10.  For a file that passes the permission check: when it cannot be
    read, [loadConfig] returns the error behind
    [failed to read config file: ]; when it is read and does not decode, the
    error behind [failed to parse config JSON: ].  Neither is taken for a
    permission or a validation error. *)
Theorem loadConfig_content_errors (rt : Runtime) (path p : string)
    (info : FileInfo) (w : World) :
  resolvedPath rt path = Ok p ->
  os_Stat rt p = Ok info ->
  Perm (Mode info) = 384%N ->
  let w' := record (resolveEvents path ++ [EvStat p; EvReadFile p]) w in
  (forall err, ioutil_ReadFile rt p = Err err ->
     loadConfig rt path w
     = (w', Ret (Err ("failed to read config file: " +:+ err))))
  /\ (forall data err,
        ioutil_ReadFile rt p = Ok data -> json_Unmarshal rt data = Err err ->
        loadConfig rt path w
        = (w', Ret (Err ("failed to parse config JSON: " +:+ err)))).
Proof.
  intros Hp Hstat Hmode w'. split.
  - intros err Hread. rewrite loadConfig_steps. unfold loadConfigSteps.
    rewrite Hp, Hstat. destruct (decide _); [|contradiction].
    simpl. now rewrite Hread.
  - intros data err Hread Hjson. rewrite loadConfig_steps.
    unfold loadConfigSteps. rewrite Hp, Hstat.
    destruct (decide _); [|contradiction]. simpl. now rewrite Hread, Hjson.
Qed.

Lemma loadConfig_content_errors_witness :
  let file := "/home/u/.cyberark_api" in
  let w' := {| stdout := ""; stderr := "";
               trace := [EvStat file; EvReadFile file] |} in
  loadConfig (machine "/home/u" file 384 "{" (Err "unexpected end of JSON input"))
    file emptyWorld
  = (w', Ret (Err "failed to parse config JSON: unexpected end of JSON input"))
  /\ loadConfig
       (withContent (laptop sampleConfig)
          (fun _ => Err "read /home/u/.cyberark_api: is a directory")
          (json_Unmarshal (laptop sampleConfig)))
       file emptyWorld
     = (w', Ret (Err "failed to read config file: read /home/u/.cyberark_api: is a directory")).
Proof.
  intros file w'. split.
  - exact (proj2 (loadConfig_content_errors
                    (machine "/home/u" file 384 "{"
                       (Err "unexpected end of JSON input"))
                    file file {| Mode := 384 |} emptyWorld
                    eq_refl eq_refl eq_refl)
             "{" "unexpected end of JSON input" eq_refl eq_refl).
  - exact (proj1 (loadConfig_content_errors
                    (withContent (laptop sampleConfig)
                       (fun _ => Err "read /home/u/.cyberark_api: is a directory")
                       (json_Unmarshal (laptop sampleConfig)))
                    file file {| Mode := 384 |} emptyWorld
                    eq_refl eq_refl eq_refl)
             "read /home/u/.cyberark_api: is a directory" eq_refl).
Defined.

(** ** The configuration loader: what a run does and does not do *)

(** X11.  A configuration that [loadConfig] returns comes from a file with
    the permission bits 0600 that was read and decoded, and has a non-empty
    secret and a non-empty base URL; the run touched that file and no
    other. *)
Theorem loadConfig_success (rt : Runtime) (path : string) (w w' : World)
    (c : Config) :
  loadConfig rt path w = (w', Ret (Ok c)) ->
  exists p info data,
    resolvedPath rt path = Ok p
    /\ os_Stat rt p = Ok info /\ Perm (Mode info) = 384%N
    /\ ioutil_ReadFile rt p = Ok data /\ json_Unmarshal rt data = Ok c
    /\ APISecret c <> "" /\ BaseURL c <> ""
    /\ filesTouched rt path = [p; p].
Proof.
  intros Hload.
  destruct (loadConfig_Ok rt path w w' c Hload)
    as (p & info & data & Hp & Hstat & Hmode & Hread & Hjson & Hs & Hb & _).
  exists p, info, data. repeat (split; [assumption|]).
  unfold filesTouched. rewrite loadConfig_steps. unfold loadConfigSteps.
  rewrite Hp, Hstat. destruct (decide _); [|contradiction]. simpl.
  unfold fileAccesses. rewrite omap_app. simpl.
  destruct path as [|ch rest]; [reflexivity|]. unfold resolveEvents.
  now destruct (decide (ch = "~"%char)).
Qed.

Lemma loadConfig_success_witness :
  exists p info data,
    resolvedPath (laptop sampleConfig) "~/.cyberark_api" = Ok p
    /\ os_Stat (laptop sampleConfig) p = Ok info
    /\ Perm (Mode info) = 384%N
    /\ ioutil_ReadFile (laptop sampleConfig) p = Ok data
    /\ json_Unmarshal (laptop sampleConfig) data = Ok sampleConfig
    /\ APISecret sampleConfig <> "" /\ BaseURL sampleConfig <> ""
    /\ filesTouched (laptop sampleConfig) "~/.cyberark_api" = [p; p].
Proof.
  refine (loadConfig_success (laptop sampleConfig) "~/.cyberark_api"
            emptyWorld loadedWorld sampleConfig _).
  vm_compute. reflexivity.
Defined.

(** X12.  [loadConfig] always returns (it never ends the process), writes
    nothing to either stream, and apart from the look-up of the home
    directory its only external calls are [Stat] and [ReadFile] on the path
    it resolved. *)
Theorem loadConfig_only_reads (rt : Runtime) (path : string) (w : World) :
  exists evs r,
    loadConfig rt path w = (record evs w, Ret r)
    /\ stdout (record evs w) = stdout w
    /\ stderr (record evs w) = stderr w
    /\ forall ev, ev ∈ evs ->
         ev = EvUserHomeDir
         \/ exists p, resolvedPath rt path = Ok p
                      /\ (ev = EvStat p \/ ev = EvReadFile p).
Proof.
  exists (fst (loadConfigSteps rt path)), (snd (loadConfigSteps rt path)).
  split; [apply loadConfig_steps|]. split; [reflexivity|].
  split; [reflexivity|].
  assert (forall ev, ev ∈ resolveEvents path -> ev = EvUserHomeDir) as Hres.
  { intros ev. destruct path as [|ch rest]; simpl; [intros H; inversion H|].
    destruct (decide (ch = "~"%char)); intros H.
    - apply list_elem_of_singleton in H. exact H.
    - inversion H. }
  intros ev. unfold loadConfigSteps.
  destruct (resolvedPath rt path) as [p|err]; simpl;
    [|intros H; left; now apply Hres].
  destruct (os_Stat rt p) as [info|err]; [destruct (decide _)|]; simpl;
    rewrite elem_of_app; intros [H|H]; try (left; now apply Hres);
    right; exists p; (split; [reflexivity|]);
    repeat (apply elem_of_cons in H as [H|H]; [subst; auto|]);
    inversion H.
Qed.

Lemma split_slash_prefix (s : string) :
  filepath.split ("/" +:+ s) = "" :: filepath.split s.
Proof. reflexivity. Qed.

Lemma Join_tilde_slash (home s : string) :
  home <> "" ->
  filepath.Join [home; "/" +:+ s] = filepath.Join [home; s].
Proof.
  intros Hne. rewrite !Join_two by exact Hne. unfold filepath.Clean.
  destruct (decide (home +:+ "/" +:+ "/" +:+ s = "")) as [He|_].
  { destruct home; [contradiction | discriminate]. }
  destruct (decide (home +:+ "/" +:+ s = "")) as [He|_].
  { destruct home; [contradiction | discriminate]. }
  assert (forall t, filepath.isRooted (home +:+ t) = filepath.isRooted home)
    as Hroot.
  { intros t. destruct home; [contradiction | reflexivity]. }
  rewrite !Hroot. cbv zeta.
  rewrite !split_append_slash, split_slash_prefix, !fold_left_app.
  simpl fold_left at 2. unfold filepath.visit at 3.
  destruct (decide ("" = "")); [reflexivity | contradiction].
Qed.

(** X13.  The slash after the tilde is optional: with a home directory
    that is not empty, [loadConfig] on ["~" + s] and on ["~/" + s] make the
    same external calls and return the same result, for every [s].  A path
    such as [~name] is a file under the own home directory, not the home
    directory of a user [name]. *)
Theorem loadConfig_tilde_slash_optional (rt : Runtime) (home s : string)
    (w : World) :
  os_UserHomeDir rt = Ok home -> home <> "" ->
  loadConfig rt ("~/" +:+ s) w = loadConfig rt ("~" +:+ s) w
  /\ resolvedPath rt ("~" +:+ s)
     = Ok (filepath.Clean (home +:+ "/" +:+ s)).
Proof.
  intros Hhome Hne.
  assert (loadConfigSteps rt ("~/" +:+ s) = loadConfigSteps rt ("~" +:+ s))
    as Hsteps.
  { unfold loadConfigSteps.
    change ("~/" +:+ s) with ("~" +:+ ("/" +:+ s)).
    rewrite !(resolvedPath_tilde rt home) by exact Hhome.
    rewrite Join_tilde_slash by exact Hne. reflexivity. }
  split.
  - now rewrite !loadConfig_steps, Hsteps.
  - rewrite (resolvedPath_tilde rt home s Hhome). now rewrite Join_two.
Qed.

Lemma loadConfig_tilde_slash_optional_witness :
  loadConfig (laptop sampleConfig) "~/.cyberark_api" emptyWorld
  = loadConfig (laptop sampleConfig) "~.cyberark_api" emptyWorld
  /\ resolvedPath (laptop sampleConfig) "~.cyberark_api"
     = Ok "/home/u/.cyberark_api".
Proof.
  refine (loadConfig_tilde_slash_optional (laptop sampleConfig) "/home/u"
            ".cyberark_api" emptyWorld eq_refl _).
  discriminate.
Defined.

(** ** The portable permission check *)

Lemma checkFilePermissions_run (rt : Runtime) (GOOS path : string)
    (w : World) :
  checkFilePermissions rt GOOS path w
  = (record [EvStat path] w,
     Ret match os_Stat rt path with
         | Err err => Some err
         | Ok info =>
             if decide (Perm (Mode info) = 384%N) then None
             else if decide (GOOS = "windows") then None
             else Some "file must have 0600 permissions"
         end).
Proof.
  unfold checkFilePermissions, bind, ret, Stat, emit, record. simpl.
  destruct (os_Stat rt path) as [info|err]; [|reflexivity].
  destruct (decide (Perm (Mode info) <> 384%N)) as [Hne|He],
           (decide (Perm (Mode info) = 384%N)) as [He'|Hne'];
    try contradiction; try reflexivity.
  destruct (decide (GOOS <> "windows")), (decide (GOOS = "windows"));
    try contradiction; reflexivity.
Qed.

(** X14.  For a file that exists, [checkFilePermissions] reports no error
    exactly when the permission bits are 0600 or the platform is
    [windows], where every mode is accepted; its only external call is the
    [Stat] of the path as given (a tilde is not expanded), and an error of
    [Stat] is returned as it is. *)
Theorem checkFilePermissions_accepts (rt : Runtime) (GOOS path : string)
    (w : World) :
  (forall info, os_Stat rt path = Ok info ->
     (snd (checkFilePermissions rt GOOS path w) = Ret None
      <-> Perm (Mode info) = 384%N \/ GOOS = "windows")
     /\ (Perm (Mode info) <> 384%N -> GOOS <> "windows" ->
         snd (checkFilePermissions rt GOOS path w)
         = Ret (Some "file must have 0600 permissions")))
  /\ (forall err, os_Stat rt path = Err err ->
        snd (checkFilePermissions rt GOOS path w) = Ret (Some err))
  /\ fst (checkFilePermissions rt GOOS path w) = record [EvStat path] w.
Proof.
  rewrite checkFilePermissions_run. simpl. repeat apply conj.
  - intros info ->. split.
    + destruct (decide (Perm (Mode info) = 384%N)); [tauto|].
      destruct (decide (GOOS = "windows")); [tauto|].
      split; [discriminate | tauto].
    + intros Hmode Hos.
      destruct (decide (Perm (Mode info) = 384%N)); [contradiction|].
      now destruct (decide (GOOS = "windows")).
  - now intros err ->.
  - reflexivity.
Qed.

Lemma checkFilePermissions_accepts_witness :
  let rt := machine "/home/u" "/home/u/.cyberark_api" 420 "{}"
              (Ok sampleConfig) in
  snd (checkFilePermissions rt "linux" "/home/u/.cyberark_api" emptyWorld)
  = Ret (Some "file must have 0600 permissions")
  /\ snd (checkFilePermissions rt "windows" "/home/u/.cyberark_api"
            emptyWorld) = Ret None
  /\ snd (checkFilePermissions rt "linux" "~/.cyberark_api" emptyWorld)
     = Ret (Some "stat ~/.cyberark_api: no such file or directory").
Proof.
  intros rt.
  pose proof (fun GOOS path =>
                checkFilePermissions_accepts rt GOOS path emptyWorld) as H.
  split; [|split].
  - refine (proj2 (proj1 (H "linux" "/home/u/.cyberark_api")
                     {| Mode := 420 |} eq_refl) _ _);
      [vm_compute | ]; discriminate.
  - refine (proj2 (proj1 (proj1 (H "windows" "/home/u/.cyberark_api")
                            {| Mode := 420 |} eq_refl)) _).
    now right.
  - exact (proj1 (proj2 (H "linux" "~/.cyberark_api")) _ eq_refl).
Defined.

(** X15.  Off Windows the portable check and the loader agree: for a path
    without a leading tilde, a configuration that [loadConfig] returns
    implies that [checkFilePermissions] reports no error, and a permission
    error of [checkFilePermissions] implies that [loadConfig] returns its
    own permission error. *)
Theorem checkFilePermissions_agrees_with_loadConfig (rt : Runtime)
    (GOOS path : string) (w : World) :
  resolvedPath rt path = Ok path ->
  (forall w' c, loadConfig rt path w = (w', Ret (Ok c)) ->
     snd (checkFilePermissions rt GOOS path w) = Ret None)
  /\ (snd (checkFilePermissions rt GOOS path w)
      = Ret (Some "file must have 0600 permissions") ->
      forall info, os_Stat rt path = Ok info ->
      snd (loadConfig rt path w)
      = Ret (Err ("config file must have 0600 permissions, has "
                  +:+ fmt.verb_o (Perm (Mode info))))).
Proof.
  intros Hp. rewrite checkFilePermissions_run. simpl. split.
  - intros w' c Hload.
    destruct (loadConfig_Ok rt path w w' c Hload)
      as (p & info & data & Hp' & Hstat & Hmode & _).
    rewrite Hp in Hp'. injection Hp' as <-. rewrite Hstat.
    now destruct (decide (Perm (Mode info) = 384%N)).
  - intros Hcheck info Hstat. rewrite Hstat in Hcheck.
    rewrite loadConfig_steps. unfold loadConfigSteps. rewrite Hp, Hstat.
    destruct (decide (Perm (Mode info) = 384%N)); [discriminate|].
    reflexivity.
Qed.

Lemma checkFilePermissions_agrees_with_loadConfig_witness :
  let file := "/home/u/.cyberark_api" in
  snd (checkFilePermissions (laptop sampleConfig) "linux" file emptyWorld)
  = Ret None
  /\ snd (loadConfig (machine "/home/u" file 420 "{}" (Ok sampleConfig))
            file emptyWorld)
     = Ret (Err "config file must have 0600 permissions, has 644").
Proof.
  intros file. split.
  - refine (proj1 (checkFilePermissions_agrees_with_loadConfig
                     (laptop sampleConfig) "linux" file emptyWorld eq_refl)
              _ sampleConfig _).
    vm_compute. reflexivity.
  - refine (proj2 (checkFilePermissions_agrees_with_loadConfig
                     (machine "/home/u" file 420 "{}" (Ok sampleConfig))
                     "linux" file emptyWorld eq_refl)
              _ {| Mode := 420 |} eq_refl).
    vm_compute. reflexivity.
Defined.

(** ** The API client: construction and the ways to fail *)

(** X16.  [NewAPIClient] keeps the configuration and derives the time-out
    of the HTTP client from it: 30 seconds when the configured value is
    zero or negative, the configured number of seconds while the product
    with a second fits 64 bits (up to 9223372036 seconds).  From 9223372037
    to 18446744073 seconds the product wraps around and the time-out is
    negative. *)
Theorem NewAPIClient_timeout (c : Config) :
  let t := Client_Timeout (httpClient (NewAPIClient c)) in
  config (NewAPIClient c) = c
  /\ ((Timeout c <= 0)%Z -> t = (30 * time_Second)%Z)
  /\ ((0 < Timeout c <= 9223372036)%Z ->
      t = (Timeout c * time_Second)%Z /\ (0 < t)%Z)
  /\ ((9223372037 <= Timeout c <= 18446744073)%Z -> (t < 0)%Z).
Proof.
  unfold NewAPIClient, wrap64, time_Second. simpl.
  split; [reflexivity|]. repeat apply conj.
  - intros Hle. destruct (Z.ltb_spec 0 (Timeout c)); [lia|]. reflexivity.
  - intros [Hpos Hle]. destruct (Z.ltb_spec 0 (Timeout c)); [|lia].
    rewrite Z.mod_small by lia. lia.
  - intros [Hge Hle]. destruct (Z.ltb_spec 0 (Timeout c)); [|lia].
    assert ((Timeout c * 1000000000 + 2 ^ 63) mod 2 ^ 64
            = Timeout c * 1000000000 + 2 ^ 63 - 2 ^ 64)%Z as ->.
    { symmetry. apply (Z.mod_unique_pos _ _ 1). - lia. - lia. }
    lia.
Qed.

Lemma NewAPIClient_timeout_witness :
  Client_Timeout (httpClient (NewAPIClient sampleConfig)) = 30000000000%Z
  /\ Client_Timeout
       (httpClient (NewAPIClient
                      {| APISecret := "s"; BaseURL := "https://h/api";
                         Username := ""; Timeout := 5 |}))
     = 5000000000%Z
  /\ (Client_Timeout
        (httpClient (NewAPIClient
                       {| APISecret := "s"; BaseURL := "https://h/api";
                          Username := ""; Timeout := 9223372037 |}))
      < 0)%Z.
Proof.
  split; [|split].
  - refine (proj1 (proj2 (NewAPIClient_timeout sampleConfig)) _).
    simpl. lia.
  - refine (proj1 (proj1 (proj2 (proj2 (NewAPIClient_timeout _))) _)).
    simpl. lia.
  - refine (proj2 (proj2 (proj2 (NewAPIClient_timeout _))) _).
    simpl. lia.
Defined.

(** X17.  When the payload does not encode, [Post] and [Put] return the
    encoder's error behind [failed to marshal payload: ] and leave the world
    as it is: no request is built or sent, whatever the endpoint. *)
Theorem client_marshal_failure {Payload : Type} (tr : Transport Payload)
    (c : APIClient) (endpoint : string) (payload : Payload) (err : error)
    (w : World) :
  json_Marshal tr payload = Err err ->
  Post tr c endpoint payload w
  = (w, Ret (Err ("failed to marshal payload: " +:+ err)))
  /\ Put tr c endpoint payload w
     = (w, Ret (Err ("failed to marshal payload: " +:+ err))).
Proof.
  intros Hjson. unfold Post, Put, bind, ret. now rewrite Hjson.
Qed.

Lemma client_marshal_failure_witness :
  let tr := {| json_Marshal := fun _ : string =>
                 Err "json: unsupported type: chan int";
               http_NewRequest_error := fun _ _ => None;
               Client_Do := Client_Do (server 200 "[]") |} in
  Post tr (NewAPIClient sampleConfig) "accounts" "payload" emptyWorld
  = (emptyWorld,
     Ret (Err "failed to marshal payload: json: unsupported type: chan int")).
Proof.
  intros tr.
  exact (proj1 (client_marshal_failure tr (NewAPIClient sampleConfig)
                  "accounts" "payload" "json: unsupported type: chan int"
                  emptyWorld eq_refl)).
Defined.

(** X18.  When the HTTP library rejects the URL, each of the four
    operations returns the library's error behind
    [failed to create request: ] and sends nothing. *)
Theorem client_request_rejected {Payload : Type} (tr : Transport Payload)
    (c : APIClient) (endpoint : string) (payload : Payload)
    (jsonData : string) (err : error) (w : World) :
  json_Marshal tr payload = Ok jsonData ->
  (forall method,
     http_NewRequest_error tr method
       (BaseURL (config c) +:+ "/" +:+ endpoint) = Some err) ->
  let failure := "failed to create request: " +:+ err in
  Get tr c endpoint w = (w, Ret (Err failure))
  /\ Post tr c endpoint payload w = (w, Ret (Err failure))
  /\ Put tr c endpoint payload w = (w, Ret (Err failure))
  /\ Delete tr c endpoint w = (w, Ret (Some failure)).
Proof.
  intros Hjson Hurl failure.
  unfold Get, Post, Put, Delete, bind, ret, http_NewRequest.
  now rewrite Hjson, !Hurl.
Qed.

Lemma client_request_rejected_witness :
  let tr := {| json_Marshal := fun payload : string => Ok payload;
               http_NewRequest_error := fun _ _ =>
                 Some "parse: invalid control character in URL";
               Client_Do := Client_Do (server 200 "[]") |} in
  Delete tr (NewAPIClient sampleConfig) "accounts" emptyWorld
  = (emptyWorld,
     Ret (Some "failed to create request: parse: invalid control character in URL")).
Proof.
  intros tr.
  exact (proj2 (proj2 (proj2
           (client_request_rejected tr (NewAPIClient sampleConfig)
              "accounts" "{}" "{}"
              "parse: invalid control character in URL" emptyWorld
              eq_refl (fun _ => eq_refl))))).
Defined.

(** X19.  When the transport fails (no response), each of the four
    operations has sent its one request and returns the transport's error
    behind [request failed: ]. *)
Theorem client_transport_failure {Payload : Type} (tr : Transport Payload)
    (c : APIClient) (endpoint : string) (payload : Payload)
    (jsonData : string) (err : error) (w : World) :
  json_Marshal tr payload = Ok jsonData ->
  (forall method,
     http_NewRequest_error tr method
       (BaseURL (config c) +:+ "/" +:+ endpoint) = None) ->
  (forall method reqBody,
     Client_Do tr (httpClient c) (expectedRequest method c endpoint reqBody)
     = Err err) ->
  let failure := "request failed: " +:+ err in
  Get tr c endpoint w
  = (record [EvDo (expectedRequest "GET" c endpoint None)] w,
     Ret (Err failure))
  /\ Post tr c endpoint payload w
     = (record [EvDo (expectedRequest "POST" c endpoint (Some jsonData))] w,
        Ret (Err failure))
  /\ Put tr c endpoint payload w
     = (record [EvDo (expectedRequest "PUT" c endpoint (Some jsonData))] w,
        Ret (Err failure))
  /\ Delete tr c endpoint w
     = (record [EvDo (expectedRequest "DELETE" c endpoint None)] w,
        Ret (Some failure)).
Proof.
  intros Hjson Hurl Hdo failure.
  pose proof (Get_run tr c endpoint w (Hurl _)) as HG.
  pose proof (with_payload_run tr c endpoint "POST" payload jsonData w _
                Hjson (Hurl _) (or_introl (conj eq_refl eq_refl))) as HPo.
  pose proof (with_payload_run tr c endpoint "PUT" payload jsonData w _
                Hjson (Hurl _) (or_intror (conj eq_refl eq_refl))) as HPu.
  pose proof (Delete_run tr c endpoint w (Hurl _)) as HD.
  cbv zeta in HG, HPo, HPu, HD.
  rewrite HG, HPo, HPu, HD, !Hdo. repeat split.
Qed.

Lemma client_transport_failure_witness :
  let tr := {| json_Marshal := fun payload : string => Ok payload;
               http_NewRequest_error := fun _ _ => None;
               Client_Do := fun _ _ => Err "dial tcp: connection refused" |} in
  snd (Get tr (NewAPIClient sampleConfig) "accounts" emptyWorld)
  = Ret (Err "request failed: dial tcp: connection refused").
Proof.
  intros tr.
  pose proof (proj1 (client_transport_failure tr (NewAPIClient sampleConfig)
                       "accounts" "{}" "{}" "dial tcp: connection refused"
                       emptyWorld eq_refl (fun _ => eq_refl)
                       (fun _ _ => eq_refl))) as H.
  now rewrite H.
Defined.

(** X20.  When the body of the response cannot be read to its end, [Get],
    [Post] and [Put] return the read error behind
    [failed to read response: ], whatever the status, a success status
    included.  [Delete] never reports a read error: it succeeds on a
    success status without reading, and on any other status returns the
    status error built from what was read. *)
Theorem client_read_failure {Payload : Type} (tr : Transport Payload)
    (c : APIClient) (endpoint : string) (payload : Payload)
    (jsonData : string) (resp : Response) (err : error) (w : World) :
  json_Marshal tr payload = Ok jsonData ->
  (forall method,
     http_NewRequest_error tr method
       (BaseURL (config c) +:+ "/" +:+ endpoint) = None) ->
  (forall method reqBody,
     Client_Do tr (httpClient c) (expectedRequest method c endpoint reqBody)
     = Ok resp) ->
  readError (Body resp) = Some err ->
  let failure := "failed to read response: " +:+ err in
  snd (Get tr c endpoint w) = Ret (Err failure)
  /\ snd (Post tr c endpoint payload w) = Ret (Err failure)
  /\ snd (Put tr c endpoint payload w) = Ret (Err failure)
  /\ ((200 <= StatusCode resp < 300)%Z ->
      snd (Delete tr c endpoint w) = Ret None)
  /\ (~ (200 <= StatusCode resp < 300)%Z ->
      snd (Delete tr c endpoint w)
      = Ret (Some (apiError (StatusCode resp) (contents (Body resp))))).
Proof.
  intros Hjson Hurl Hdo Hread failure.
  pose proof (Get_run tr c endpoint w (Hurl _)) as HG.
  pose proof (with_payload_run tr c endpoint "POST" payload jsonData w _
                Hjson (Hurl _) (or_introl (conj eq_refl eq_refl))) as HPo.
  pose proof (with_payload_run tr c endpoint "PUT" payload jsonData w _
                Hjson (Hurl _) (or_intror (conj eq_refl eq_refl))) as HPu.
  pose proof (Delete_run tr c endpoint w (Hurl _)) as HD.
  cbv zeta in HG, HPo, HPu, HD.
  rewrite HG, HPo, HPu, HD, !Hdo, Hread. simpl.
  repeat apply conj; try reflexivity; intros Hs;
    destruct (decide (200 <= StatusCode resp < 300)%Z);
    try contradiction; reflexivity.
Qed.

Lemma client_read_failure_witness :
  let resp := {| StatusCode := 200;
                 Body := {| contents := "[{";
                            readError := Some "unexpected EOF" |} |} in
  let tr := {| json_Marshal := fun payload : string => Ok payload;
               http_NewRequest_error := fun _ _ => None;
               Client_Do := fun _ _ => Ok resp |} in
  snd (Get tr (NewAPIClient sampleConfig) "accounts" emptyWorld)
  = Ret (Err "failed to read response: unexpected EOF")
  /\ snd (Delete tr (NewAPIClient sampleConfig) "accounts" emptyWorld)
     = Ret None.
Proof.
  intros resp tr.
  destruct (client_read_failure tr (NewAPIClient sampleConfig) "accounts"
              "{}" "{}" resp "unexpected EOF" emptyWorld eq_refl
              (fun _ => eq_refl) (fun _ _ => eq_refl) eq_refl)
    as (Hget & _ & _ & Hdel & _).
  split; [exact Hget|]. apply Hdel. simpl. lia.
Defined.

(** X21.  The client is silent and always returns: whatever the transport
    does, none of the four operations writes to the standard output or to
    the error stream (the secret it puts in the header is not logged), and
    none ends the process. *)
Theorem client_is_silent {Payload : Type} (tr : Transport Payload)
    (c : APIClient) (endpoint : string) (payload : Payload) (w : World) :
  let silent {A} (run : World * Outcome A) : Prop :=
    stdout (fst run) = stdout w /\ stderr (fst run) = stderr w
    /\ exists r, snd run = Ret r in
  silent (Get tr c endpoint w)
  /\ silent (Post tr c endpoint payload w)
  /\ silent (Put tr c endpoint payload w)
  /\ silent (Delete tr c endpoint w).
Proof.
  intros silent. unfold silent. split; [|split; [|split]].
  - destruct (http_NewRequest_error tr "GET"
                (BaseURL (config c) +:+ "/" +:+ endpoint)) as [err|] eqn:Hurl.
    + unfold Get, bind, ret, http_NewRequest. rewrite Hurl. simpl. eauto.
    + rewrite Get_run by exact Hurl. simpl. eauto.
  - destruct (json_Marshal tr payload) as [jsonData|err] eqn:Hjson.
    + destruct (http_NewRequest_error tr "POST"
                  (BaseURL (config c) +:+ "/" +:+ endpoint))
        as [err|] eqn:Hurl.
      * unfold Post, bind, ret, http_NewRequest. rewrite Hjson, Hurl.
        simpl. eauto.
      * rewrite (with_payload_run tr c endpoint "POST" payload jsonData
                   w _ Hjson Hurl (or_introl (conj eq_refl eq_refl))).
        simpl. eauto.
    + unfold Post, bind, ret. rewrite Hjson. simpl. eauto.
  - destruct (json_Marshal tr payload) as [jsonData|err] eqn:Hjson.
    + destruct (http_NewRequest_error tr "PUT"
                  (BaseURL (config c) +:+ "/" +:+ endpoint))
        as [err|] eqn:Hurl.
      * unfold Put, bind, ret, http_NewRequest. rewrite Hjson, Hurl.
        simpl. eauto.
      * rewrite (with_payload_run tr c endpoint "PUT" payload jsonData
                   w _ Hjson Hurl (or_intror (conj eq_refl eq_refl))).
        simpl. eauto.
    + unfold Put, bind, ret. rewrite Hjson. simpl. eauto.
  - destruct (http_NewRequest_error tr "DELETE"
                (BaseURL (config c) +:+ "/" +:+ endpoint)) as [err|] eqn:Hurl.
    + unfold Delete, bind, ret, http_NewRequest. rewrite Hurl. simpl. eauto.
    + rewrite Delete_run by exact Hurl. simpl. eauto.
Qed.

(** ** The registry and the usage text *)

Lemma contains_append_l (sub pre s : string) :
  contains sub s -> contains sub (pre +:+ s).
Proof.
  intros (a & b & ->). exists (pre +:+ a), b. now rewrite append_assoc.
Qed.

Lemma contains_foldr (f : string -> string) (names : list string)
    (tail name : string) :
  name ∈ names ->
  contains (f name) (foldr (fun n text => f n +:+ text) tail names).
Proof.
  induction names as [|n names IH]; intros Hin; [inversion Hin|].
  apply elem_of_cons in Hin as [->|Hin]; simpl.
  - exists "", (foldr (fun n text => f n +:+ text) tail names). reflexivity.
  - apply contains_append_l. now apply IH.
Qed.

(** X22.  When the iteration over the registry visits a registered name,
    as the iteration of a Go map does for every key, [printUsage] writes a
    line made of two spaces and that name; in particular the usage text
    shows a workflow as soon as it is registered.  [printUsage] writes to
    the standard output only. *)
Theorem printUsage_lists_registered (rt : Runtime)
    (reg : gmap string Workflow) (name : string) (wf : Workflow) :
  (forall n, is_Some (RegisterWorkflow name wf reg !! n) ->
             n ∈ range_keys rt (RegisterWorkflow name wf reg)) ->
  let reg' := RegisterWorkflow name wf reg in
  prints (printUsage rt reg') (usageText rt reg') "" (Ret tt)
  /\ contains ("  " +:+ name +:+ fmt.nl) (usageText rt reg').
Proof.
  intros Hrange reg'. split; [apply prints_printUsage|].
  unfold usageText. do 9 apply contains_append_l.
  apply (contains_foldr (fun n => "  " +:+ n +:+ fmt.nl)).
  apply Hrange. unfold RegisterWorkflow. rewrite lookup_insert_eq. eauto.
Qed.

Lemma printUsage_lists_registered_witness :
  contains ("  " +:+ "rotate" +:+ fmt.nl)
    (usageText (laptop sampleConfig)
       (RegisterWorkflow "rotate" (helloWorkflow "rotated") sampleRegistry)).
Proof.
  refine (proj2 (printUsage_lists_registered (laptop sampleConfig)
                   sampleRegistry "rotate" (helloWorkflow "rotated") _)).
  intros n [wf Hwf]. simpl. apply list_elem_of_fmap.
  exists (n, wf). split; [reflexivity|]. now apply elem_of_map_to_list.
Defined.

(** X23.  Registrations under different names commute, so the registry
    does not depend on the order in which the [init] functions of the
    workflow files run; and a registration adds its name to the registered
    names and removes none. *)
Theorem RegisterWorkflow_commutes (name1 name2 : string) (h1 h2 : Workflow)
    (reg : gmap string Workflow) :
  name1 <> name2 ->
  RegisterWorkflow name1 h1 (RegisterWorkflow name2 h2 reg)
  = RegisterWorkflow name2 h2 (RegisterWorkflow name1 h1 reg)
  /\ dom (RegisterWorkflow name1 h1 reg) = {[name1]} ∪ dom reg.
Proof.
  intros Hne. unfold RegisterWorkflow. split.
  - now apply insert_insert_ne.
  - apply dom_insert_L.
Qed.

Lemma RegisterWorkflow_commutes_witness :
  RegisterWorkflow "rotate" (helloWorkflow "rotated")
    (RegisterWorkflow "list-accounts" (helloWorkflow "listed") ∅)
  = RegisterWorkflow "list-accounts" (helloWorkflow "listed")
      (RegisterWorkflow "rotate" (helloWorkflow "rotated") ∅).
Proof.
  refine (proj1 (RegisterWorkflow_commutes "rotate" "list-accounts" _ _ ∅ _)).
  discriminate.
Defined.

(** ** The global flags *)

Lemma Parse_config_path (rt : Runtime) (reg : gmap string Workflow)
    (v : GlobalFlags) (spelling p : string) (rest : list string) :
  spelling = "-c" \/ spelling = "--config" ->
  flag.Parse rt (CommandLine rt reg) v (spelling :: p :: rest)
  = flag.Parse rt (CommandLine rt reg)
      {| configPath := p; showHelp := showHelp v |} rest.
Proof.
  remember (p :: rest) as tail eqn:Htail.
  intros [-> | ->]; simpl flag.Parse.
  - destruct (decide ("-"%char <> "-"%char)) as [Hc|_]; [contradiction|].
    destruct (decide ("-c" = "--")) as [Hc|_]; [discriminate|].
    destruct (decide ("c"%char = "-"%char)) as [Hc|_]; [discriminate|].
    destruct (decide ("c"%char = "-"%char \/ "c"%char = "="%char))
      as [[Hc|Hc]|_]; [discriminate..|].
    cbn [flag.cut].
    rewrite lookup_insert_ne by discriminate.
    rewrite lookup_insert_ne by discriminate. rewrite lookup_insert_eq.
    subst tail. reflexivity.
  - destruct (decide ("-"%char <> "-"%char)) as [Hc|_]; [contradiction|].
    destruct (decide ("--config" = "--")) as [Hc|_]; [discriminate|].
    destruct (decide ("-"%char = "-"%char)) as [_|Hc]; [|contradiction].
    destruct (decide ("c"%char = "-"%char \/ "c"%char = "="%char))
      as [[Hc|Hc]|_]; [discriminate..|].
    change (flag.cut "onfig") with ("onfig", @None string). cbv iota.
    rewrite lookup_insert_ne by discriminate.
    rewrite lookup_insert_ne by discriminate.
    rewrite lookup_insert_ne by discriminate. rewrite lookup_insert_eq.
    subst tail. reflexivity.
Qed.

Lemma Parse_show_help (rt : Runtime) (reg : gmap string Workflow)
    (v : GlobalFlags) (spelling : string) (rest : list string) :
  spelling = "-h" \/ spelling = "--help" ->
  flag.Parse rt (CommandLine rt reg) v (spelling :: rest)
  = flag.Parse rt (CommandLine rt reg)
      {| configPath := configPath v; showHelp := true |} rest.
Proof.
  intros [-> | ->]; simpl flag.Parse.
  - destruct (decide ("-"%char <> "-"%char)) as [Hc|_]; [contradiction|].
    destruct (decide ("-h" = "--")) as [Hc|_]; [discriminate|].
    destruct (decide ("h"%char = "-"%char)) as [Hc|_]; [discriminate|].
    destruct (decide ("h"%char = "-"%char \/ "h"%char = "="%char))
      as [[Hc|Hc]|_]; [discriminate..|].
    cbn [flag.cut]. rewrite lookup_insert_eq. reflexivity.
  - destruct (decide ("-"%char <> "-"%char)) as [Hc|_]; [contradiction|].
    destruct (decide ("--help" = "--")) as [Hc|_]; [discriminate|].
    destruct (decide ("-"%char = "-"%char)) as [_|Hc]; [|contradiction].
    destruct (decide ("h"%char = "-"%char \/ "h"%char = "="%char))
      as [[Hc|Hc]|_]; [discriminate..|].
    change (flag.cut "elp") with ("elp", @None string). cbv iota.
    rewrite lookup_insert_ne by discriminate. rewrite lookup_insert_eq.
    reflexivity.
Qed.

(** X24.  The short and the long spelling of a global flag are one flag:
    [-c PATH] and [--config PATH] give the same run, and so do [-h] and
    [--help], whatever follows.  A path given with [-c] before a workflow
    name replaces the default path, and the arguments after the name are
    left for the workflow. *)
Theorem global_flag_spellings (rt : Runtime) (reg : gmap string Workflow)
    (p name : string) (rest : list string) (w : World) :
  main rt reg ("-c" :: p :: rest) w = main rt reg ("--config" :: p :: rest) w
  /\ main rt reg ("-h" :: rest) w = main rt reg ("--help" :: rest) w
  /\ (positional name ->
      flag.Parse rt (CommandLine rt reg) flagDefaults
        ("-c" :: p :: name :: rest) w
      = (w, Ret ({| configPath := p; showHelp := false |}, name :: rest))).
Proof.
  repeat apply conj.
  - unfold main.
    now rewrite !(Parse_config_path rt reg flagDefaults _ p rest)
      by (left + right; reflexivity).
  - unfold main.
    now rewrite !(Parse_show_help rt reg flagDefaults _ rest)
      by (left + right; reflexivity).
  - intros Hpos.
    rewrite (Parse_config_path rt reg flagDefaults "-c" p (name :: rest))
      by now left.
    now apply Parse_positional.
Qed.

Lemma global_flag_spellings_witness :
  positional "verify"
  /\ flag.Parse (laptop sampleConfig)
       (CommandLine (laptop sampleConfig) sampleRegistry) flagDefaults
       ["-c"; "/etc/cyberark.json"; "verify"; "-h"] emptyWorld
     = (emptyWorld,
        Ret ({| configPath := "/etc/cyberark.json"; showHelp := false |},
             ["verify"; "-h"])).
Proof.
  assert (positional "verify") as Hpos by (simpl; discriminate).
  split; [exact Hpos|].
  exact (proj2 (proj2 (global_flag_spellings (laptop sampleConfig)
                         sampleRegistry "/etc/cyberark.json" "verify" ["-h"]
                         emptyWorld)) Hpos).
Defined.
